(** * Tunable lifecycle scripts: job monitor, tunable client, workflows

    A shallow embedding of [troubleshooting/validate_tunables.py] and
    [troubleshooting/cleanup_test_tunables.py].

    The scripts are sequential HTTP clients.  Everything they observe comes
    from the appliance, so the appliance is a parameter ([Server]): for each
    endpoint a function from the current [World] to the time the call takes
    and what [requests] hands back (an exception, or a response with a status
    code, a text and a JSON body).  The [World] holds the wall clock, in
    milliseconds, and the chronological trace of requests sent and sleeps
    taken.  Python code becomes a state-and-exception monad [M] over [World];
    [try ... except Exception] becomes [try].

    Not modelled: console output, the session headers, the per-call
    [timeout=] arguments (a timed-out call is an exception of the server's
    choosing), and JSON values of a shape other than the one the endpoint
    documents.  Strings are sequences of characters; [str.lower] is modelled
    on the ASCII letters. *)

From Stdlib Require Import ZArith NArith List String Ascii Bool Lia DecimalString Permutation.
Import ListNotations.
Open Scope string_scope.
Open Scope Z_scope.

(** ** Data *)

(** [@dataclass class Tunable] of validate_tunables.py. *)
Record Tunable := {
  name : string;
  type : string;
  value : string;
  description : string
}.

(** A Python value that is an [int] or [None]: what [dict.get("id")] yields. *)
Definition PyId := option Z.

(** An entry of the list [GET /tunable] returns.  A field is [None] when the
    JSON object has no such key. *)
Record RemoteTunable := {
  rt_id : option Z;
  rt_var : option string;
  rt_comment : option string;
  rt_enabled : option bool
}.

(** An entry of the list [GET /core/get_jobs] returns; [state] is what
    [job.get('state')] yields. *)
Record Job := { state : option string }.

(** The [data] dictionary [create_tunable] posts. *)
Record CreateData := {
  cd_var : string;
  cd_value : string;
  cd_type : string;
  cd_comment : string;
  cd_enabled : bool
}.

(** The JSON body of a [POST /tunable] response: an object (of which the code
    reads the keys ["id"] and ["detail"]), or a bare value (an integer id, or
    [null]). *)
Inductive PostJson :=
| PJDict (id : PyId) (detail : option string)
| PJValue (v : PyId).

(** Exceptions, split the way [create_tunable] catches them. *)
Inductive Exn :=
| RequestException (msg : string)
| OtherException (msg : string).

Definition str_exn (e : Exn) : string :=
  match e with RequestException m => m | OtherException m => m end.

(** A [requests.Response]: [json] is what [response.json()] does, return a
    decoded body or raise. *)
Record Response (A : Type) := {
  status_code : Z;
  text : string;
  json : Exn + A
}.
Arguments status_code {A} _.
Arguments text {A} _.
Arguments json {A} _.

(** What a call on the session does: raise, or return a response. *)
Inductive Reply (A : Type) :=
| Failed (e : Exn)
| Answered (r : Response A).
Arguments Failed {A} e.
Arguments Answered {A} r.

(** ** The world *)

Inductive Request :=
| GET_jobs
| GET_tunable
| POST_tunable (data : CreateData)
| PUT_tunable (id : PyId) (enabled : bool)
| DELETE_tunable (id : PyId).

Inductive Event :=
| Sent (rq : Request)
| Slept (ms : Z).

Record World := {
  now : Z;                (* time.time(), in milliseconds *)
  trace : list Event      (* oldest first *)
}.

(** The appliance: per endpoint, the duration of the call and its reply. *)
Record Server := {
  get_jobs : World -> N * Reply (list Job);
  get_tunables : World -> N * Reply (list RemoteTunable);
  post_tunable : World -> CreateData -> N * Reply PostJson;
  put_tunable : World -> PyId -> bool -> N * Reply unit;
  del_tunable : World -> PyId -> N * Reply unit
}.

(** ** The monad *)

Inductive Outcome (A : Type) :=
| Return (a : A)
| Raise (e : Exn).
Arguments Return {A} a.
Arguments Raise {A} e.

Definition M (A : Type) := World -> Outcome A * World.

Definition ret {A} (a : A) : M A := fun w => (Return a, w).

Definition raise {A} (e : Exn) : M A := fun w => (Raise e, w).

Definition bind {A B} (m : M A) (k : A -> M B) : M B :=
  fun w =>
    match m w with
    | (Return a, w') => k a w'
    | (Raise e, w') => (Raise e, w')
    end.

(** [try: m except Exception as e: h e] *)
Definition try {A} (m : M A) (h : Exn -> M A) : M A :=
  fun w =>
    match m w with
    | (Return a, w') => (Return a, w')
    | (Raise e, w') => h e w'
    end.

Notation "x <- m ;; k" := (bind m (fun x => k))
  (at level 61, m at next level, right associativity).
Notation "' p <- m ;; k" := (bind m (fun x => match x with p => k end))
  (at level 61, p pattern, m at next level, right associativity).
Notation "m ;;; k" := (bind m (fun _ => k))
  (at level 61, right associativity).

(** The world once [ms] milliseconds were slept. *)
Definition slept (ms : Z) (w : World) : World :=
  {| now := now w + ms; trace := trace w ++ [Slept ms] |}.

(** [time.sleep(ms / 1000)] *)
Definition sleep (ms : Z) : M unit :=
  fun w => (Return tt, slept ms w).

(** The world right after request [rq] took [lat] milliseconds. *)
Definition after (rq : Request) (lat : N) (w : World) : World :=
  {| now := now w + Z.of_N lat; trace := trace w ++ [Sent rq] |}.

(** A call on the session. *)
Definition send {A} (rq : Request) (ep : World -> N * Reply A) : M (Response A) :=
  fun w =>
    match ep w with
    | (lat, Failed e) => (Raise e, after rq lat w)
    | (lat, Answered r) => (Return r, after rq lat w)
    end.

(** [response.json()] *)
Definition decode {A} (r : Response A) : M A :=
  fun w =>
    match json r with
    | inl e => (Raise e, w)
    | inr a => (Return a, w)
    end.

(** ** Strings *)

(** [str(n)] for an integer. *)
Definition str_int (n : Z) : string := NilZero.string_of_int (Z.to_int n).

(** [str(x)] for an int or [None], as an f-string prints it. *)
Definition str_id (i : PyId) : string :=
  match i with
  | Some n => str_int n
  | None => "None"
  end.

(** [s[:n]] *)
Fixpoint slice_to (n : nat) (s : string) : string :=
  match n, s with
  | S n', String c s' => String c (slice_to n' s')
  | _, _ => EmptyString
  end.

Definition lower_char (c : ascii) : ascii :=
  let n := nat_of_ascii c in
  if andb (Nat.leb 65 n) (Nat.leb n 90) then ascii_of_nat (n + 32) else c.

(** [s.lower()] *)
Fixpoint lower (s : string) : string :=
  match s with
  | EmptyString => EmptyString
  | String c s' => String (lower_char c) (lower s')
  end.

(** [k in s] for strings. *)
Fixpoint contains (k s : string) : bool :=
  if prefix k s then true
  else match s with
       | EmptyString => false
       | String _ s' => contains k s'
       end.

(** [x in names] for a collection of strings. *)
Definition mem_string (x : string) (names : list string) : bool :=
  existsb (String.eqb x) names.

(** [a == b] on ids that may be [None]. *)
Definition id_eqb (a b : PyId) : bool :=
  match a, b with
  | Some x, Some y => x =? y
  | None, None => true
  | _, _ => false
  end.

(** [v == s] where [v] is [dict.get(key)] and [s] a string. *)
Definition get_eqb (v : option string) (s : string) : bool :=
  match v with
  | Some x => String.eqb x s
  | None => false
  end.

(** ** Job monitor *)

Section Client.

Variable srv : Server.

(** [job.get('state') in ['RUNNING', 'WAITING']] *)
Definition is_running (j : Job) : bool :=
  match state j with
  | Some s => mem_string s ["RUNNING"; "WAITING"]
  | None => false
  end.

Definition running_jobs (jobs : list Job) : list Job := filter is_running jobs.

(** [not xs] on a list. *)
Definition is_empty {A} (xs : list A) : bool :=
  match xs with [] => true | _ => false end.

(** One turn of the [while] loop of [monitor_jobs]: [Some b] when the turn
    executes [return b], [None] when it falls through to the loop test. *)
Definition poll_once : M (option bool) :=
  try (response <- send GET_jobs (get_jobs srv) ;;
       if status_code response =? 200 then
         jobs <- decode response ;;
         if is_empty jobs then ret (Some true)
         else if is_empty (running_jobs jobs) then ret (Some true)
         else sleep 500 ;;; ret None
       else
         sleep 2000 ;;; ret (Some true))
      (fun _ => sleep 2000 ;;; ret (Some true)).

(** The [while time.time() - start_time < timeout_seconds] loop.  [None]
    when [fuel] turns did not reach a [return]. *)
Fixpoint monitor_loop (fuel : nat) (start_time timeout_seconds : Z) (w : World)
  : option (Outcome bool * World) :=
  match fuel with
  | O => None
  | S fuel' =>
      if now w - start_time <? 1000 * timeout_seconds then
        match poll_once w with
        | (Return (Some b), w') => Some (Return b, w')
        | (Return None, w') => monitor_loop fuel' start_time timeout_seconds w'
        | (Raise e, w') => Some (Raise e, w')
        end
      else Some (Return false, w)
  end.

(** A turn that does not return sleeps half a second, so the loop test fails
    after at most [2 * timeout_seconds] turns. *)
Definition poll_budget (timeout_seconds : Z) : nat :=
  S (Z.to_nat (2 * timeout_seconds)).

(** [TrueNASAPI.monitor_jobs] (validate_tunables.py) and [monitor_jobs]
    (cleanup_test_tunables.py): the two differ in debug output only. *)
Definition monitor_jobs (timeout_seconds : Z) : M bool :=
  fun w =>
    match monitor_loop (poll_budget timeout_seconds) (now w) timeout_seconds w with
    | Some r => r
    | None => (Return false, w)
    end.

(** ** Tunable client (validate_tunables.py) *)

Definition create_data (tunable : Tunable) : CreateData :=
  {| cd_var := name tunable;
     cd_value := value tunable;
     cd_type := type tunable;
     cd_comment := slice_to 255 (description tunable);
     cd_enabled := true |}.

(** The text [create_tunable] computes for a response that is not a 200. *)
Definition error_text (response : Response PostJson) : string :=
  let unknown :=
    if String.eqb (text response) "" then "Unknown error" else text response in
  if String.eqb (text response) "" then text response
  else
    match json response with
    | inl _ => unknown
    | inr (PJDict _ (Some detail)) => detail
    | inr (PJDict _ None) => text response
    | inr (PJValue None) => text response
    | inr (PJValue (Some n)) => if n =? 0 then text response else unknown
    end.

(** The entry, if any, the [for t in tunables] scan stops at. *)
Definition find_by_var (var : string) (tunables : list RemoteTunable) : option RemoteTunable :=
  find (fun t => get_eqb (rt_var t) var) tunables.

Definition find_by_id (tunable_id : PyId) (tunables : list RemoteTunable) : option RemoteTunable :=
  find (fun t => id_eqb (rt_id t) tunable_id) tunables.

(** [TrueNASAPI.create_tunable]: (success, tunable_id, message). *)
Definition create_tunable (tunable : Tunable) : M (bool * PyId * string) :=
  let data := create_data tunable in
  try (response <- send (POST_tunable data) (fun w => post_tunable srv w data) ;;
       if status_code response =? 200 then
         result <- decode response ;;
         let creation_id :=
           match result with
           | PJDict id _ => id
           | PJValue v => v
           end in
         job_completed <- monitor_jobs (if String.eqb (type tunable) "ZFS" then 30 else 15) ;;
         verify_response <- send GET_tunable (get_tunables srv) ;;
         found <- (if status_code verify_response =? 200 then
                     tunables <- decode verify_response ;;
                     ret (find_by_var (name tunable) tunables)
                   else ret None) ;;
         match found with
         | Some t =>
             let actual_id := rt_id t in
             ret (true, actual_id,
                  "Created successfully (actual ID: " ++ str_id actual_id ++ ")")
         | None =>
             ret (true, creation_id,
                  "Created successfully (creation ID: " ++ str_id creation_id ++ ")")
         end
       else
         ret (false, None,
              "HTTP " ++ str_int (status_code response) ++ ": " ++ error_text response))
      (fun e =>
         match e with
         | RequestException m => ret (false, None, "Request error: " ++ m)
         | OtherException m => ret (false, None, "Unexpected error: " ++ m)
         end).

(** ["active" if enabled else "disabled"], with [enabled = t.get("enabled", False)]. *)
Definition status_word (t : RemoteTunable) : string :=
  match rt_enabled t with
  | Some true => "active"
  | _ => "disabled"
  end.

(** [if s:] for a string or [None]: the string when it is truthy. *)
Definition truthy (s : option string) : option string :=
  match s with
  | Some EmptyString => None
  | other => other
  end.

(** [TrueNASAPI.get_tunable]: (exists, message). *)
Definition get_tunable (tunable_id : PyId) (tunable_name : option string) : M (bool * string) :=
  try (response <- send GET_tunable (get_tunables srv) ;;
       if status_code response =? 200 then
         tunables <- decode response ;;
         match find_by_id tunable_id tunables with
         | Some t =>
             let var_name := match rt_var t with Some v => v | None => "unknown" end in
             ret (true, "Tunable '" ++ var_name ++ "' (ID: " ++ str_id tunable_id
                        ++ ") is " ++ status_word t)
         | None =>
             match match truthy tunable_name with
                   | Some n => option_map (pair n) (find_by_var n tunables)
                   | None => None
                   end with
             | Some (n, t) =>
                 ret (true, "Tunable '" ++ n ++ "' found with ID " ++ str_id (rt_id t)
                            ++ " and is " ++ status_word t)
             | None =>
                 ret (false, "Tunable ID " ++ str_id tunable_id
                             ++ " not found in system (searched "
                             ++ str_int (Z.of_nat (List.length tunables)) ++ " tunables)")
             end
         end
       else
         ret (false, "Cannot verify tunable: HTTP " ++ str_int (status_code response)))
      (fun e => ret (false, "Error checking tunable: " ++ str_exn e)).

(** [status in [200, 204]] *)
Definition deleted_status (status : Z) : bool := (status =? 200) || (status =? 204).

(** [any(t.get("id") == tunable_id for t in tunables)] *)
Definition listed (tunable_id : PyId) (tunables : list RemoteTunable) : bool :=
  existsb (fun t => id_eqb (rt_id t) tunable_id) tunables.

(** "Method 1" of the two deletes: the DELETE request, then, when it answers
    200 or 204, the job wait and the check that the record left the list.
    [true] where the Python returns from inside the [if]; [false] where it
    falls through to "Method 2". *)
Definition hard_delete (tunable_id : PyId) : M bool :=
  response <- send (DELETE_tunable tunable_id) (fun w => del_tunable srv w tunable_id) ;;
  if deleted_status (status_code response) then
    monitor_jobs 10 ;;;
    verify_response <- send GET_tunable (get_tunables srv) ;;
    if status_code verify_response =? 200 then
      tunables <- decode verify_response ;;
      ret (negb (listed tunable_id tunables))
    else ret false
  else ret false.

(** "Method 2": the PUT with [{"enabled": False}]; the response's status. *)
Definition soft_disable (tunable_id : PyId) : M Z :=
  response <- send (PUT_tunable tunable_id false)
                   (fun w => put_tunable srv w tunable_id false) ;;
  if status_code response =? 200 then
    monitor_jobs 10 ;;; ret 200
  else ret (status_code response).

(** [TrueNASAPI.delete_tunable]: (success, message).  One [try] around both
    methods. *)
Definition delete_tunable (tunable_id : PyId) : M (bool * string) :=
  try (gone <- hard_delete tunable_id ;;
       if gone then ret (true, "Deleted successfully")
       else
         status <- soft_disable tunable_id ;;
         if status =? 200 then ret (true, "Disabled successfully")
         else ret (false, "Failed to delete tunable " ++ str_id tunable_id
                          ++ " (HTTP " ++ str_int status ++ ")"))
      (fun e => ret (false, "Delete error: " ++ str_exn e)).

End Client.

(** ** Loops *)

(** [for x in xs: body(x)] *)
Fixpoint for_each {A} (xs : list A) (body : A -> M unit) : M unit :=
  match xs with
  | [] => ret tt
  | x :: xs' => body x ;;; for_each xs' body
  end.

(** [for x in xs: s = body(x, s)] for a loop that updates local variables [s]. *)
Fixpoint for_fold {A S} (xs : list A) (body : A -> S -> M S) (s : S) : M S :=
  match xs with
  | [] => ret s
  | x :: xs' => s' <- body x s ;; for_fold xs' body s'
  end.

(** [d[key]]: a [KeyError] when the key is missing. *)
Definition subscript {A} (key : string) (v : option A) : M A :=
  match v with
  | Some a => ret a
  | None => raise (OtherException ("'" ++ key ++ "'"))
  end.

(** [d.get(key, '')] *)
Definition get_or_empty (v : option string) : string :=
  match v with
  | Some s => s
  | None => ""
  end.

(** ** validate_tunables.py: the workflow *)

Module Validate.

Definition tunable (n t v d : string) : Tunable :=
  {| name := n; type := t; value := v; description := d |}.

Definition sysctl_tunables : list Tunable := [
    tunable "vm.swappiness" "SYSCTL" "1" "Minimizes swap usage with 192GB RAM available";
    tunable "vm.vfs_cache_pressure" "SYSCTL" "50" "Balanced inode/dentry cache retention";
    tunable "vm.dirty_ratio" "SYSCTL" "10" "Percentage of system memory for dirty pages";
    tunable "vm.dirty_background_ratio" "SYSCTL" "5" "Start background writeback at 5% dirty memory";
    tunable "vm.dirty_expire_centisecs" "SYSCTL" "3000" "Dirty pages older than 30 seconds get written";
    tunable "vm.min_free_kbytes" "SYSCTL" "1048576" "Reserve 1GB minimum free memory";
    tunable "kernel.shmmax" "SYSCTL" "103079215104" "~96GB for shared memory segments";
    tunable "kernel.shmall" "SYSCTL" "25165824" "Total shared memory pages";
    tunable "kernel.sem" "SYSCTL" "250 32000 100 512" "Semaphore parameters for container IPC";
    tunable "net.core.rmem_max" "SYSCTL" "134217728" "128MB max receive buffer";
    tunable "net.core.wmem_max" "SYSCTL" "134217728" "128MB max send buffer";
    tunable "net.core.rmem_default" "SYSCTL" "33554432" "32MB default receive buffer";
    tunable "net.core.wmem_default" "SYSCTL" "33554432" "32MB default send buffer";
    tunable "net.core.netdev_max_backlog" "SYSCTL" "30000" "Increased packet backlog for 10GbE";
    tunable "net.core.somaxconn" "SYSCTL" "8192" "Maximum socket connection queue";
    tunable "net.ipv4.tcp_rmem" "SYSCTL" "4096 87380 134217728" "TCP receive buffer settings";
    tunable "net.ipv4.tcp_wmem" "SYSCTL" "4096 65536 134217728" "TCP send buffer settings";
    tunable "net.ipv4.tcp_congestion_control" "SYSCTL" "bbr" "Google's BBR congestion control";
    tunable "net.ipv4.tcp_mtu_probing" "SYSCTL" "1" "Enable MTU probing for jumbo frames";
    tunable "net.ipv4.tcp_timestamps" "SYSCTL" "1" "Required for window scaling and PAWS";
    tunable "net.ipv4.tcp_sack" "SYSCTL" "1" "Selective acknowledgments";
    tunable "net.ipv4.tcp_window_scaling" "SYSCTL" "1" "Enable RFC1323 window scaling";
    tunable "net.ipv4.tcp_no_metrics_save" "SYSCTL" "1" "Don't cache TCP metrics";
    tunable "net.ipv4.tcp_moderate_rcvbuf" "SYSCTL" "1" "Auto-tune receive buffers";
    tunable "net.ipv4.ip_local_port_range" "SYSCTL" "32768 65000" "Expanded ephemeral port range";
    tunable "net.ipv4.tcp_fin_timeout" "SYSCTL" "30" "Reduce TIME_WAIT duration";
    tunable "net.ipv4.tcp_keepalive_time" "SYSCTL" "600" "Start keepalive after 10 minutes";
    tunable "net.ipv4.tcp_keepalive_intvl" "SYSCTL" "30" "Keepalive probe interval";
    tunable "net.ipv4.tcp_keepalive_probes" "SYSCTL" "5" "Number of keepalive probes";
    tunable "net.ipv4.tcp_tw_reuse" "SYSCTL" "1" "Reuse TIME_WAIT sockets";
    tunable "net.ipv4.conf.all.rp_filter" "SYSCTL" "1" "Reverse path filtering for security";
    tunable "net.ipv4.conf.default.rp_filter" "SYSCTL" "1" "Default reverse path filtering";
    tunable "net.ipv4.neigh.default.gc_thresh1" "SYSCTL" "2048" "ARP cache minimum size";
    tunable "net.ipv4.neigh.default.gc_thresh2" "SYSCTL" "4096" "ARP cache soft maximum";
    tunable "net.ipv4.neigh.default.gc_thresh3" "SYSCTL" "8192" "ARP cache hard maximum";
    tunable "fs.file-max" "SYSCTL" "2097152" "Maximum file handles";
    tunable "fs.aio-max-nr" "SYSCTL" "1048576" "Maximum async I/O operations";
    tunable "fs.inotify.max_user_watches" "SYSCTL" "524288" "Inotify watches for containers";
    tunable "fs.inotify.max_user_instances" "SYSCTL" "8192" "Inotify instances for containers";
    tunable "net.core.netdev_budget" "SYSCTL" "600" "Packet processing budget per CPU";
    tunable "net.core.netdev_budget_usecs" "SYSCTL" "8000" "Maximum time for packet processing";
    tunable "net.ipv4.tcp_adv_win_scale" "SYSCTL" "2" "TCP receive buffer space for application"
  ].

Definition zfs_tunables : list Tunable := [
    tunable "zfs_arc_max" "ZFS" "164987617689" "~153GB (80% of RAM) ARC maximum";
    tunable "zfs_arc_min" "ZFS" "8589934592" "8GB minimum ARC size";
    tunable "zfs_arc_meta_limit" "ZFS" "82493808844" "~76GB metadata cache limit";
    tunable "zfs_arc_meta_min" "ZFS" "4294967296" "4GB minimum metadata cache";
    tunable "zfs_arc_dnode_limit" "ZFS" "16498761768" "~15GB dnode caching";
    tunable "zfs_arc_sys_free" "ZFS" "2147483648" "Keep 2GB RAM free";
    tunable "zfs_dirty_data_max" "ZFS" "8589934592" "8GB max dirty data";
    tunable "zfs_dirty_data_max_percent" "ZFS" "10" "10% of RAM can be dirty";
    tunable "zfs_txg_timeout" "ZFS" "5" "Transaction group timeout";
    tunable "zfs_vdev_async_read_max_active" "ZFS" "16" "Async read operations per vdev";
    tunable "zfs_vdev_async_write_max_active" "ZFS" "16" "Async write operations per vdev";
    tunable "zfs_vdev_sync_read_max_active" "ZFS" "16" "Sync read operations per vdev";
    tunable "zfs_vdev_sync_write_max_active" "ZFS" "16" "Sync write operations per vdev";
    tunable "zfs_vdev_scrub_max_active" "ZFS" "3" "Scrub I/O operations";
    tunable "zfs_vdev_async_write_min_active" "ZFS" "4" "Minimum async writes";
    tunable "zfs_vdev_aggregation_limit" "ZFS" "1048576" "1MB I/O aggregation";
    tunable "zfs_prefetch_disable" "ZFS" "0" "Enable prefetch";
    tunable "zfs_resilver_delay" "ZFS" "2" "Delay between resilver I/Os";
    tunable "zfs_resilver_min_time_ms" "ZFS" "3000" "Minimum resilver time per TXG";
    tunable "zfs_scan_idle" "ZFS" "50" "Milliseconds before scanner idle";
    tunable "zfs_top_maxinflight" "ZFS" "128" "Maximum outstanding I/O per vdev";
    tunable "zfs_deadman_synctime_ms" "ZFS" "120000" "120 second deadman timer";
    tunable "zfs_deadman_ziotime_ms" "ZFS" "300000" "300 second I/O timeout";
    tunable "zfs_vdev_cache_size" "ZFS" "0" "Disable vdev cache";
    tunable "l2arc_write_max" "ZFS" "134217728" "128MB/s L2ARC write speed";
    tunable "l2arc_headroom" "ZFS" "8" "L2ARC headroom multiplier";
    tunable "l2arc_noprefetch" "ZFS" "0" "Allow L2ARC prefetch";
    tunable "zfs_multihost_interval" "ZFS" "1000" "Multihost heartbeat interval";
    tunable "zfs_multihost_fail_intervals" "ZFS" "10" "Heartbeat failures before suspension";
    tunable "spa_asize_inflation" "ZFS" "24" "Metadata overhead accounting";
    tunable "zfs_admin_snapshot" "ZFS" "1" "Allow non-root snapshot admin";
    tunable "zfs_flags" "ZFS" "0" "Default ZFS module flags";
    tunable "zvol_request_sync" "ZFS" "0" "Async zvol requests";
    tunable "zvol_threads" "ZFS" "32" "Worker threads for zvol operations";
    tunable "zvol_max_discard_blocks" "ZFS" "16384" "Maximum blocks per discard";
    tunable "zfetch_max_distance" "ZFS" "67108864" "64MB max distance for prefetch";
    tunable "metaslab_lba_weighting_enabled" "ZFS" "1" "Enable LBA weighting"
  ].

Definition get_performance_tunables : list Tunable :=
  (sysctl_tunables ++ zfs_tunables)%list.

(** The local variables [valid_tunables] and [invalid_tunables] of [main]. *)
Record Accumulators := {
  valid_tunables : list Tunable;
  invalid_tunables : list (Tunable * string)
}.

(** The dictionary dumped to tunable_validation_results.json. *)
Record Results := {
  total_tested : Z;
  valid_count : Z;
  invalid_count : Z;
  valid_entries : list (string * string * string);
  invalid_entries : list (string * string * string * string)
}.

Section Workflow.

Variable srv : Server.

(** ['test' in t.get('comment', '').lower()] *)
Definition has_test_comment (t : RemoteTunable) : bool :=
  contains "test" (lower (get_or_empty (rt_comment t))).

Definition cleanup_existing_test_tunables : M unit :=
  try (response <- send GET_tunable (get_tunables srv) ;;
       if status_code response =? 200 then
         tunables <- decode response ;;
         let test_tunables := filter has_test_comment tunables in
         if is_empty test_tunables then ret tt
         else
           for_each test_tunables
             (fun t => id <- subscript "id" (rt_id t) ;;
                       delete_tunable srv (Some id) ;;; ret tt)
       else ret tt)
      (fun _ => ret tt).

(** The body of the [for i, tunable in enumerate(tunables, 1)] loop. *)
Definition test_tunable (tunable : Tunable) (acc : Accumulators) : M Accumulators :=
  ' (success, tunable_id, message) <- create_tunable srv tunable ;;
  if negb success then
    ret {| valid_tunables := valid_tunables acc;
           invalid_tunables :=
             invalid_tunables acc ++ [(tunable, "Create failed: " ++ message)] |}
  else
    ' (exists_, check_message) <- get_tunable srv tunable_id (Some (name tunable)) ;;
    ' (deleted, delete_message) <- delete_tunable srv tunable_id ;;
    if deleted then
      ret {| valid_tunables := valid_tunables acc ++ [tunable];
             invalid_tunables := invalid_tunables acc |}
    else
      ret {| valid_tunables := valid_tunables acc ++ [tunable];
             invalid_tunables := invalid_tunables acc |}.

Definition results_of (total_tunables : Z) (acc : Accumulators) : Results :=
  {| total_tested := total_tunables;
     valid_count := Z.of_nat (List.length (valid_tunables acc));
     invalid_count := Z.of_nat (List.length (invalid_tunables acc));
     valid_entries := map (fun t => (name t, type t, value t)) (valid_tunables acc);
     invalid_entries :=
       map (fun tr => (name (fst tr), type (fst tr), value (fst tr), snd tr))
           (invalid_tunables acc) |}.

(** [main]: the exit status of the process and, when the run got past the
    API-key check, the final accumulators and the results written. *)
Definition main (api_key : option string) : M (Z * option (Accumulators * Results)) :=
  match truthy api_key with
  | None => ret (1, None)
  | Some _ =>
      cleanup_existing_test_tunables ;;;
      let tunables := get_performance_tunables in
      let total_tunables := Z.of_nat (List.length tunables) in
      acc <- for_fold tunables test_tunable
               {| valid_tunables := []; invalid_tunables := [] |} ;;
      let results := results_of total_tunables acc in
      if negb (is_empty (invalid_tunables acc)) then ret (1, Some (acc, results))
      else ret (0, Some (acc, results))
  end.

End Workflow.

End Validate.

(** ** cleanup_test_tunables.py *)

Module Cleanup.

Definition test_keywords : list string :=
  ["test"; "validation"; "performance tunable test"].

Definition performance_tunable_names : list string :=
  ["vm.swappiness"; "vm.vfs_cache_pressure"; "vm.dirty_ratio"; "vm.dirty_background_ratio";
   "vm.dirty_expire_centisecs"; "vm.min_free_kbytes"; "kernel.shmmax"; "kernel.shmall";
   "net.core.rmem_max"; "net.core.wmem_max"; "zfs_arc_max"; "zfs_arc_min"].

(** [any(keyword in comment for keyword in test_keywords)] *)
Definition is_test (comment : string) : bool :=
  existsb (fun keyword => contains keyword comment) test_keywords.

(** [var_name in performance_tunable_names] *)
Definition is_performance (var_name : string) : bool :=
  mem_string var_name performance_tunable_names.

(** The test [main] applies to each listed tunable. *)
Definition is_candidate (tunable : RemoteTunable) : bool :=
  let comment := lower (get_or_empty (rt_comment tunable)) in
  let var_name := get_or_empty (rt_var tunable) in
  is_test comment || is_performance var_name.

(** The list [test_tunables] that [main] builds. *)
Definition select_test_tunables (tunables : list RemoteTunable) : list RemoteTunable :=
  filter is_candidate tunables.

(** How a run of [main] ends. *)
Inductive Ending :=
| NoApiKey
| SystemClean
| Cancelled
| Tally (deleted failed : Z)
| CleanupError (e : Exn).

Definition exit_code (e : Ending) : Z :=
  match e with
  | NoApiKey | CleanupError _ => 1
  | _ => 0
  end.

Section Workflow.

Variable srv : Server.

(** [delete_tunable_rest]: [True], or the final [raise].  Each method has a
    [try] of its own. *)
Definition delete_tunable_rest (tunable_id : PyId) : M bool :=
  gone <- try (hard_delete srv tunable_id) (fun _ => ret false) ;;
  if gone then ret true
  else
    disabled <- try (status <- soft_disable srv tunable_id ;; ret (status =? 200))
                    (fun _ => ret false) ;;
    if disabled then ret true
    else raise (OtherException ("Failed to delete tunable " ++ str_id tunable_id
                                ++ " using all methods")).

Definition get_tunables_rest : M (list RemoteTunable) :=
  response <- send GET_tunable (get_tunables srv) ;;
  if negb (status_code response =? 200) then
    raise (OtherException ("HTTP " ++ str_int (status_code response) ++ ": " ++ text response))
  else decode response.

(** [len(sys.argv) > 1 and sys.argv[1] == '--force'] *)
Definition forced (argv : list string) : bool :=
  match argv with
  | _ :: a :: _ => String.eqb a "--force"
  | _ => false
  end.

(** [main].  [argv] is [sys.argv]; [stdin] is what [input] does when called. *)
Definition main (api_key : option string) (argv : list string) (stdin : Exn + string)
  : M Ending :=
  match truthy api_key with
  | None => ret NoApiKey
  | Some _ =>
      try (tunables <- get_tunables_rest ;;
           let test_tunables := select_test_tunables tunables in
           if is_empty test_tunables then ret SystemClean
           else
             for_each test_tunables
               (fun t => subscript "id" (rt_id t) ;;; subscript "var" (rt_var t) ;;; ret tt) ;;;
             confirm <- (if forced argv then ret "y"
                         else match stdin with
                              | inl e => raise e
                              | inr line => ret (lower line)
                              end) ;;
             if negb (String.eqb confirm "y") then ret Cancelled
             else
               ' (deleted, failed) <-
                 for_fold test_tunables
                   (fun t counts =>
                      tunable_id <- subscript "id" (rt_id t) ;;
                      var_name <- subscript "var" (rt_var t) ;;
                      try (delete_tunable_rest (Some tunable_id) ;;;
                           ret (fst counts + 1, snd counts))
                          (fun _ => ret (fst counts, snd counts + 1)))
                   (0, 0) ;;
               ret (Tally deleted failed))
          (fun e => ret (CleanupError e))
  end.

End Workflow.

End Cleanup.

(** ** Vocabulary of the statements *)

(** Number of soft-disable requests (PUT) sent so far. *)
Definition is_put (e : Event) : bool :=
  match e with
  | Sent (PUT_tunable _ _) => true
  | _ => false
  end.

Definition puts (w : World) : nat := List.length (filter is_put (trace w)).

Section Observations.

Variable srv : Server.

(** The world once the job poll sent at [w] came back. *)
Definition polled (w : World) : World :=
  after GET_jobs (fst (get_jobs srv w)) w.

(** A job in state RUNNING or WAITING. *)
Definition pending (j : Job) : Prop :=
  state j = Some "RUNNING" \/ state j = Some "WAITING".

(** The poll sent at [w] yields a job list that is empty or has no pending job. *)
Definition idle_poll (w : World) : Prop :=
  exists r jobs,
    snd (get_jobs srv w) = Answered r /\ status_code r = 200 /\ json r = inr jobs /\
    (jobs = [] \/ forall j, In j jobs -> ~ pending j).

(** The poll sent at [w] yields a job list with a pending job. *)
Definition busy_poll (w : World) : Prop :=
  exists r jobs j,
    snd (get_jobs srv w) = Answered r /\ status_code r = 200 /\ json r = inr jobs /\
    In j jobs /\ pending j.

(** The poll sent at [w] fails: the call raises, the status is not 200, or
    the body of a 200 does not decode. *)
Definition failed_poll (w : World) : Prop :=
  (exists e, snd (get_jobs srv w) = Failed e) \/
  (exists r, snd (get_jobs srv w) = Answered r /\ status_code r <> 200) \/
  (exists r e, snd (get_jobs srv w) = Answered r /\ status_code r = 200 /\ json r = inl e).

(** The loop test of the monitor started at [start_time] passes at [w]. *)
Definition in_time (start_time timeout_seconds : Z) (w : World) : Prop :=
  now w - start_time < 1000 * timeout_seconds.

(** [polling start timeout w w']: the monitor started at time [start], at its
    loop test in world [w], reaches its loop test in world [w'] through polls
    that each came within the timeout, found a pending job and slept half a
    second. *)
Inductive polling (start_time timeout_seconds : Z) : World -> World -> Prop :=
| polling_here w :
    polling start_time timeout_seconds w w
| polling_next w w' :
    in_time start_time timeout_seconds w ->
    busy_poll w ->
    polling start_time timeout_seconds (slept 500 (polled w)) w' ->
    polling start_time timeout_seconds w w'.

(** The hard delete of [tunable_id] started at [w] gets a 200 or 204 and the
    list fetched after the job wait, at [w1], is [tunables]. *)
Definition deleted_then_listed (tunable_id : PyId) (w w1 : World)
           (tunables : list RemoteTunable) : Prop :=
  exists r r',
    snd (del_tunable srv w tunable_id) = Answered r /\
    (status_code r = 200 \/ status_code r = 204) /\
    w1 = snd (monitor_jobs srv 10
                (after (DELETE_tunable tunable_id) (fst (del_tunable srv w tunable_id)) w)) /\
    snd (get_tunables srv w1) = Answered r' /\
    status_code r' = 200 /\ json r' = inr tunables.

(** The record has an entry in the list. *)
Definition present (tunable_id : PyId) (tunables : list RemoteTunable) : Prop :=
  exists t, In t tunables /\ rt_id t = tunable_id.

(** The hard-delete phase leaves the record absent from the subsequent list. *)
Definition hard_deleted (tunable_id : PyId) (w : World) : Prop :=
  exists w1 tunables,
    deleted_then_listed tunable_id w w1 tunables /\ ~ present tunable_id tunables.

(** The hard-delete phase leaves the record present in the subsequent list. *)
Definition still_listed (tunable_id : PyId) (w : World) : Prop :=
  exists w1 tunables,
    deleted_then_listed tunable_id w w1 tunables /\ present tunable_id tunables.

(** The disable PUT sent at [w] answers with status 200. *)
Definition disable_succeeds (tunable_id : PyId) (w : World) : Prop :=
  exists r, snd (put_tunable srv w tunable_id false) = Answered r /\ status_code r = 200.

(** The soft-disable phase would succeed: the hard-delete phase ended at
    [w1] without returning [True], and the PUT sent at [w1] answers 200.
    [delete_tunable_rest] sends that PUT in every such case;
    [TrueNASAPI.delete_tunable] only when the hard-delete phase did not
    raise. *)
Definition soft_disabled_rest (tunable_id : PyId) (w : World) : Prop :=
  exists o w1,
    hard_delete srv tunable_id w = (o, w1) /\ o <> Return true /\
    disable_succeeds tunable_id w1.

End Observations.

Section Observations2.

Variable srv : Server.

(** The hard delete of [tunable_id] started at [w] gets a 200 or 204, but the
    list request sent after the job wait answers with another status than
    200; [w2] is the world once that answer came. *)
Definition unverified_delete (tunable_id : PyId) (w w2 : World) : Prop :=
  exists r r' w1,
    snd (del_tunable srv w tunable_id) = Answered r /\
    (status_code r = 200 \/ status_code r = 204) /\
    w1 = snd (monitor_jobs srv 10
                (after (DELETE_tunable tunable_id) (fst (del_tunable srv w tunable_id)) w)) /\
    snd (get_tunables srv w1) = Answered r' /\
    status_code r' <> 200 /\
    w2 = after GET_tunable (fst (get_tunables srv w1)) w1.

(** The list endpoint reports [tunable_id] absent, whenever it is asked. *)
Definition reports_absent (tunable_id : PyId) : Prop :=
  forall w, exists r tunables,
    snd (get_tunables srv w) = Answered r /\ status_code r = 200 /\
    json r = inr tunables /\ ~ present tunable_id tunables.

End Observations2.

Section Observations3.

Variable srv : Server.

(** The timeout [create_tunable] gives the job monitor. *)
Definition creation_timeout (tunable : Tunable) : Z :=
  if String.eqb (type tunable) "ZFS" then 30 else 15.

(** The creation POST sent at [w] answers 200 with a body that decodes and
    carries [creation_id]; [w2] is the world once the job wait that follows
    is over, where the tunables are listed again. *)
Definition created (tunable : Tunable) (w : World) (creation_id : PyId) (w2 : World) : Prop :=
  exists r body,
    snd (post_tunable srv w (create_data tunable)) = Answered r /\
    status_code r = 200 /\
    json r = inr body /\
    creation_id = match body with PJDict id _ => id | PJValue v => v end /\
    w2 = snd (monitor_jobs srv (creation_timeout tunable)
                (after (POST_tunable (create_data tunable))
                       (fst (post_tunable srv w (create_data tunable))) w)).

End Observations3.

(** [adds P w w']: the trace of [w'] is the trace of [w] followed by events
    that all satisfy [P]. *)
Definition adds (P : Event -> Prop) (w w' : World) : Prop :=
  exists es, trace w' = (trace w ++ es)%list /\ Forall P es.

(** A computation that only produces events satisfying [P]. *)
Definition emits (P : Event -> Prop) {A} (m : M A) : Prop :=
  forall w, adds P w (snd (m w)).

(** [P] holds of what the job monitor does: polls and sleeps. *)
Definition waits (P : Event -> Prop) : Prop :=
  P (Sent GET_jobs) /\ forall ms, P (Slept ms).

(** A creation request whose comment respects the limit of the appliance;
    any other event. *)
Definition comment_bounded (e : Event) : Prop :=
  match e with
  | Sent (POST_tunable data) => (String.length (cd_comment data) <= 255)%nat
  | _ => True
  end.

(** [k] occurs in [s]. *)
Definition occurs_in (k s : string) : Prop :=
  exists a b, s = a ++ k ++ b.

(** ** delete_all_tunables.py *)

Module DeleteAll.

(** How a run of [delete_all_tunables] ends, when no exception escapes. *)
Inductive Ending :=
| NoApiKey
| NothingToDelete
| Tally (deleted failed : Z)
| ApiError (msg : string).

Definition exit_code (e : Ending) : Z :=
  match e with
  | NoApiKey | ApiError _ => 1
  | _ => 0
  end.

(** [response.raise_for_status()]: an [HTTPError], which is a
    [RequestException], for a status from 400 to 599.  Of its message only
    the status and the kind are modelled, not the reason phrase and the URL. *)
Definition raise_for_status {A} (response : Response A) : M unit :=
  let status := status_code response in
  if (400 <=? status) && (status <? 500) then
    raise (RequestException (str_int status ++ " Client Error"))
  else if (500 <=? status) && (status <? 600) then
    raise (RequestException (str_int status ++ " Server Error"))
  else ret tt.

(** [try: m except requests.exceptions.RequestException as e: h e]: any other
    exception goes through. *)
Definition try_request {A} (m : M A) (h : string -> M A) : M A :=
  fun w =>
    match m w with
    | (Raise (RequestException msg), w') => h msg w'
    | other => other
    end.

Section Workflow.

Variable srv : Server.

(** The body of the [for tunable in tunables] loop, on the two counters. *)
Definition delete_one (tunable : RemoteTunable) (counts : Z * Z) : M (Z * Z) :=
  tunable_id <- subscript "id" (rt_id tunable) ;;
  tunable_var <- subscript "var" (rt_var tunable) ;;
  try_request
    (delete_response <- send (DELETE_tunable (Some tunable_id))
                             (fun w => del_tunable srv w (Some tunable_id)) ;;
     raise_for_status delete_response ;;;
     ret (fst counts + 1, snd counts))
    (fun _ => ret (fst counts, snd counts + 1)).

(** [delete_all_tunables].  An exception that is not a [RequestException]
    escapes the function. *)
Definition delete_all_tunables (api_key : option string) : M Ending :=
  match truthy api_key with
  | None => ret NoApiKey
  | Some _ =>
      try_request
        (response <- send GET_tunable (get_tunables srv) ;;
         raise_for_status response ;;;
         tunables <- decode response ;;
         let total_count := Z.of_nat (List.length tunables) in
         if total_count =? 0 then ret NothingToDelete
         else
           ' (deleted_count, failed_count) <- for_fold tunables delete_one (0, 0) ;;
           ret (Tally deleted_count failed_count))
        (fun msg => ret (ApiError msg))
  end.

End Workflow.

End DeleteAll.

(** ** More vocabulary *)

(** A request that changes nothing on the appliance, or a sleep. *)
Definition read_only (e : Event) : Prop :=
  match e with
  | Sent (POST_tunable _) | Sent (PUT_tunable _ _) | Sent (DELETE_tunable _) => False
  | _ => True
  end.

(** What the job monitor does: a job poll, the half-second sleep between
    polls, the two-second sleep after a failed poll. *)
Definition monitor_event (e : Event) : Prop :=
  e = Sent GET_jobs \/ e = Slept 500 \/ e = Slept 2000.

(** Number of job polls sent so far. *)
Definition is_poll (e : Event) : bool :=
  match e with
  | Sent GET_jobs => true
  | _ => false
  end.

Definition polls (w : World) : nat := List.length (filter is_poll (trace w)).

(** What follows the DELETE in a delete of [tunable_id]: reads, sleeps, and
    the disabling PUT of that id. *)
Definition disable_event (tunable_id : PyId) (e : Event) : Prop :=
  match e with
  | Sent (POST_tunable _) | Sent (DELETE_tunable _) => False
  | Sent (PUT_tunable id enabled) => id = tunable_id /\ enabled = false
  | _ => True
  end.

(** What the validation workflow may do besides reading and sleeping: create
    an enabled tunable of the table, with a comment within the limit; delete;
    disable. *)
Definition validation_event (e : Event) : Prop :=
  match e with
  | Sent (POST_tunable data) =>
      (exists tunable,
          In tunable Validate.get_performance_tunables /\ data = create_data tunable) /\
      (String.length (cd_comment data) <= 255)%nat /\ cd_enabled data = true
  | Sent (PUT_tunable _ enabled) => enabled = false
  | _ => True
  end.

(** A name occurs as [var] in a list of tunables. *)
Definition named (var : string) (tunables : list RemoteTunable) : Prop :=
  exists t, In t tunables /\ rt_var t = Some var.

(** An entry of the list has the two keys the cleanup scripts subscript. *)
Definition has_keys (t : RemoteTunable) : Prop :=
  rt_id t <> None /\ rt_var t <> None.

(** The list request sent at [w] is answered 200 with the list [tunables]. *)
Definition lists (srv : Server) (w : World) (tunables : list RemoteTunable) : Prop :=
  exists r,
    snd (get_tunables srv w) = Answered r /\ status_code r = 200 /\ json r = inr tunables.

(** The world once the list request sent at [w] came back. *)
Definition listed_at (srv : Server) (w : World) : World :=
  after GET_tunable (fst (get_tunables srv w)) w.

(** The selective cleanup has its go-ahead: [--force] as first argument, or
    an answer that is [y] in either case. *)
Definition confirmed (argv : list string) (stdin : Exn + string) : Prop :=
  Cleanup.forced argv = true \/ exists line, stdin = inr line /\ lower line = "y".

(** A status [raise_for_status] raises for. *)
Definition error_status (status : Z) : Prop := 400 <= status < 600.

(** The DELETE endpoint raises nothing but request exceptions. *)
Definition delete_raises_requests_only (srv : Server) : Prop :=
  forall w id msg, snd (del_tunable srv w id) <> Failed (OtherException msg).

(** The list request sent at [w] is answered with a status that
    [raise_for_status] lets through and the list [tunables]. *)
Definition wipe_lists (srv : Server) (w : World) (tunables : list RemoteTunable) : Prop :=
  exists r,
    snd (get_tunables srv w) = Answered r /\ ~ error_status (status_code r) /\
    json r = inr tunables.

(** ** Sample appliances *)

Definition world0 : World := {| now := 0; trace := [] |}.

Definition answer {A} (status : Z) (body : A) : Reply A :=
  Answered {| status_code := status; text := ""; json := inr body |}.

(** An appliance that takes [lat] milliseconds per call and always gives the
    same reply on each endpoint. *)
Definition steady (lat : N)
           (jobs : Reply (list Job)) (tunables : Reply (list RemoteTunable))
           (post : Reply PostJson) (put del : Reply unit) : Server :=
  {| get_jobs := fun _ => (lat, jobs);
     get_tunables := fun _ => (lat, tunables);
     post_tunable := fun _ _ => (lat, post);
     put_tunable := fun _ _ _ => (lat, put);
     del_tunable := fun _ _ => (lat, del) |}.

Definition remote (i : Z) (var comment : string) : RemoteTunable :=
  {| rt_id := Some i; rt_var := Some var; rt_comment := Some comment;
     rt_enabled := Some true |}.

(** No jobs, no tunables, every request accepted. *)
Definition quiet_server : Server :=
  steady 20 (answer 200 []) (answer 200 [])
         (answer 200 (PJDict (Some 1) None)) (answer 200 tt) (answer 200 tt).

(** One job that stays RUNNING. *)
Definition busy_server : Server :=
  steady 20 (answer 200 [{| state := Some "RUNNING" |}]) (answer 200 [])
         (answer 200 (PJDict (Some 1) None)) (answer 200 tt) (answer 200 tt).

(** The job endpoint is unreachable. *)
Definition jobless_server : Server :=
  steady 20 (Failed (RequestException "connection refused")) (answer 200 [])
         (answer 200 (PJDict (Some 1) None)) (answer 200 tt) (answer 200 tt).

(** DELETE is accepted but record 7 stays listed; PUT is accepted. *)
Definition sticky_server : Server :=
  steady 20 (answer 200 []) (answer 200 [remote 7 "vm.swappiness" ""])
         (answer 200 (PJDict (Some 7) None)) (answer 200 tt) (answer 200 tt).

(** Nothing is listed; DELETE and PUT of an unknown id answer 404. *)
Definition gone_server : Server :=
  steady 20 (answer 200 []) (answer 200 [])
         (answer 200 (PJDict (Some 1) None)) (answer 404 tt) (answer 404 tt).

(** DELETE answers 204, the list endpoint answers 503, PUT is accepted. *)
Definition unlisted_server : Server :=
  steady 20 (answer 200 []) (answer 503 [])
         (answer 200 (PJDict (Some 7) None)) (answer 200 tt) (answer 204 tt).

(** The world once [unlisted_server] answered the DELETE of record 7, the job
    poll and the list request, starting from [world0]. *)
Definition unlisted_world : World :=
  {| now := 60;
     trace := [Sent (DELETE_tunable (Some 7)); Sent GET_jobs; Sent GET_tunable] |}.

(** POST is accepted with id 7; listing the tunables raises. *)
Definition flaky_list_server : Server :=
  steady 20 (answer 200 []) (Failed (RequestException "connection reset"))
         (answer 200 (PJDict (Some 7) None)) (answer 200 tt) (answer 200 tt).

(** The creation answers with id 1; the list then shows the tunable under
    id 42. *)
Definition renumbering_server : Server :=
  steady 20 (answer 200 []) (answer 200 [remote 42 "vm.swappiness" ""])
         (answer 200 (PJDict (Some 1) None)) (answer 200 tt) (answer 200 tt).

(** Every request is answered 500 with a body that is no JSON. *)
Definition broken_server : Server :=
  let broken {A} : Reply A :=
    Answered {| status_code := 500; text := "Internal Server Error";
                json := inl (RequestException "Expecting value") |} in
  steady 20 broken broken broken broken broken.

(** Every request raises a connection error. *)
Definition unreachable_server : Server :=
  let down {A} : Reply A := Failed (RequestException "connection refused") in
  steady 20 down down down down down.

(** Two tunables are listed, the first with a test comment; DELETE is
    accepted for id 1 and answers 404 for any other id. *)
Definition picky_server : Server :=
  {| get_jobs := fun _ => (20%N, answer 200 []);
     get_tunables := fun _ =>
       (20%N, answer 200 [remote 1 "vm.swappiness" "Validation Test"; remote 2 "custom" ""]);
     post_tunable := fun _ _ => (20%N, answer 200 (PJDict (Some 3) None));
     put_tunable := fun _ _ _ => (20%N, answer 404 tt);
     del_tunable := fun _ id =>
       (20%N, if id_eqb id (Some 1) then answer 200 tt else answer 404 tt) |}.

(** One tunable with a test comment is listed, without an id. *)
Definition keyless_server : Server :=
  steady 20 (answer 200 [])
         (answer 200 [{| rt_id := None; rt_var := Some "custom";
                         rt_comment := Some "test"; rt_enabled := Some true |}])
         (answer 200 (PJDict (Some 1) None)) (answer 200 tt) (answer 200 tt).

(** The DELETE request raises; PUT is accepted. *)
Definition flaky_delete_server : Server :=
  steady 20 (answer 200 []) (answer 200 [remote 7 "vm.swappiness" ""])
         (answer 200 (PJDict (Some 7) None)) (answer 200 tt)
         (Failed (RequestException "connection reset")).

(** The list of the selective-cleanup example. *)
Definition cleanup_example : list RemoteTunable :=
  [ {| rt_id := Some 1; rt_var := Some "zfs_arc_max"; rt_comment := Some "";
       rt_enabled := None |};
    {| rt_id := Some 2; rt_var := Some "foo"; rt_comment := Some "test run";
       rt_enabled := None |};
    {| rt_id := Some 3; rt_var := Some "bar"; rt_comment := Some "";
       rt_enabled := None |} ].

(** ** Tactics *)

(** Unfold the monad down to pairs. *)
Ltac unmonad :=
  unfold try, bind, ret, raise, send, decode, sleep, subscript in *.

Ltac inv H := inversion H; subst; clear H.

(** * Proofs *)

(** ** Strings and lists *)

Lemma slice_to_length n s : (String.length (slice_to n s) <= n)%nat.
Proof.
  revert s; induction n as [|n IH]; intros [|c s]; simpl; try lia.
  specialize (IH s); lia.
Qed.

Lemma is_empty_true {A} (xs : list A) : is_empty xs = true <-> xs = [].
Proof. destruct xs; simpl; split; congruence. Qed.

Lemma is_running_pending j : is_running j = true <-> pending j.
Proof.
  unfold is_running, pending, mem_string.
  destruct (state j) as [s|]; simpl.
  - rewrite !orb_true_iff, !String.eqb_eq.
    split; [intros [H|[H|H]]; [left|right|discriminate]; congruence
           | intros [H|H]; [left|right; left]; congruence].
  - split; [discriminate | intros [H|H]; discriminate].
Qed.

Lemma running_jobs_nil jobs :
  running_jobs jobs = [] <-> forall j, In j jobs -> ~ pending j.
Proof.
  unfold running_jobs; induction jobs as [|j jobs IH]; simpl.
  - split; [intros _ j [] | reflexivity].
  - destruct (is_running j) eqn:E.
    + split; [discriminate|].
      intros H; exfalso; apply (H j); [now left | now apply is_running_pending].
    + rewrite IH; split.
      * intros H j' [<-|Hin]; [|now apply H].
        rewrite <- is_running_pending; congruence.
      * intros H j' Hin; apply H; now right.
Qed.

Lemma id_eqb_eq a b : id_eqb a b = true <-> a = b.
Proof.
  destruct a, b; simpl; try rewrite Z.eqb_eq; split; congruence.
Qed.

Lemma listed_present tunable_id tunables :
  listed tunable_id tunables = true <-> present tunable_id tunables.
Proof.
  unfold listed, present; rewrite existsb_exists.
  split; intros (t & Hin & H); exists t; split; trivial; now apply id_eqb_eq.
Qed.

Lemma deleted_status_spec z : deleted_status z = true <-> z = 200 \/ z = 204.
Proof. unfold deleted_status; rewrite orb_true_iff, !Z.eqb_eq; tauto. Qed.

(** ** Trace bookkeeping *)

Lemma puts_after rq lat w :
  puts (after rq lat w) = (puts w + if is_put (Sent rq) then 1 else 0)%nat.
Proof.
  unfold puts, after; simpl; rewrite filter_app, length_app; simpl.
  destruct rq; reflexivity.
Qed.

Lemma puts_slept ms w : puts (slept ms w) = puts w.
Proof.
  unfold puts, slept; simpl; rewrite filter_app, length_app; simpl; lia.
Qed.

Lemma now_after rq lat w : now (after rq lat w) = now w + Z.of_N lat.
Proof. reflexivity. Qed.

Lemma now_slept ms w : now (slept ms w) = now w + ms.
Proof. reflexivity. Qed.

(** ** Job monitor: one poll *)

Section MonitorFacts.

Variable srv : Server.

Lemma poll_once_idle w :
  idle_poll srv w -> poll_once srv w = (Return (Some true), polled srv w).
Proof.
  intros (r & jobs & Hr & Hs & Hj & Hidle).
  unfold poll_once, polled; unmonad.
  destruct (get_jobs srv w) as [lat rp]; simpl in *; subst rp.
  rewrite Hs, Hj; simpl.
  destruct (is_empty jobs) eqn:E; trivial.
  destruct Hidle as [->|Hnone]; [discriminate|].
  apply running_jobs_nil in Hnone; rewrite Hnone; reflexivity.
Qed.

Lemma poll_once_busy w :
  busy_poll srv w -> poll_once srv w = (Return None, slept 500 (polled srv w)).
Proof.
  intros (r & jobs & j & Hr & Hs & Hj & Hin & Hp).
  unfold poll_once, polled; unmonad.
  destruct (get_jobs srv w) as [lat rp]; simpl in *; subst rp.
  rewrite Hs, Hj; simpl.
  destruct (is_empty jobs) eqn:E.
  - apply is_empty_true in E; subst jobs; destruct Hin.
  - destruct (is_empty (running_jobs jobs)) eqn:E'; trivial.
    apply is_empty_true in E'.
    exfalso; exact (proj1 (running_jobs_nil jobs) E' j Hin Hp).
Qed.

Lemma poll_once_failed w :
  failed_poll srv w ->
  poll_once srv w = (Return (Some true), slept 2000 (polled srv w)).
Proof.
  unfold poll_once, polled; unmonad.
  intros [(e & He) | [(r & Hr & Hs) | (r & e & Hr & Hs & Hj)]];
    destruct (get_jobs srv w) as [lat rp]; simpl in *; subst rp; trivial.
  - apply Z.eqb_neq in Hs; rewrite Hs; reflexivity.
  - rewrite Hs, Hj; reflexivity.
Qed.

(** Every poll is of exactly one of the three kinds the monitor tells apart. *)
Lemma poll_kinds w : idle_poll srv w \/ busy_poll srv w \/ failed_poll srv w.
Proof.
  unfold idle_poll, busy_poll, failed_poll.
  destruct (get_jobs srv w) as [lat [e|r]]; simpl.
  - right; right; left; eauto.
  - destruct (Z.eq_dec (status_code r) 200) as [Hs|Hs].
    + destruct (json r) as [e|jobs] eqn:Hj.
      * right; right; right; right; eauto.
      * destruct (running_jobs jobs) as [|j js] eqn:E.
        -- left; exists r, jobs; repeat split; trivial.
           right; now apply running_jobs_nil.
        -- right; left; exists r, jobs, j; repeat split; trivial.
           ++ assert (H : In j (running_jobs jobs)) by (rewrite E; now left).
              apply filter_In in H; tauto.
           ++ assert (H : In j (running_jobs jobs)) by (rewrite E; now left).
              apply filter_In in H; now apply is_running_pending.
    + right; right; right; left; eauto.
Qed.

Lemma poll_once_continues w w' :
  poll_once srv w = (Return None, w') ->
  busy_poll srv w /\ w' = slept 500 (polled srv w).
Proof.
  intros H.
  destruct (poll_kinds w) as [K|[K|K]].
  - rewrite (poll_once_idle w K) in H; discriminate.
  - rewrite (poll_once_busy w K) in H; inv H; auto.
  - rewrite (poll_once_failed w K) in H; discriminate.
Qed.

(** A poll never raises and never returns [False]. *)
Lemma poll_once_outcomes w :
  fst (poll_once srv w) = Return None \/ fst (poll_once srv w) = Return (Some true).
Proof.
  destruct (poll_kinds w) as [K|[K|K]].
  - rewrite (poll_once_idle w K); auto.
  - rewrite (poll_once_busy w K); auto.
  - rewrite (poll_once_failed w K); auto.
Qed.

Lemma poll_once_puts w : puts (snd (poll_once srv w)) = puts w.
Proof.
  destruct (poll_kinds w) as [K|[K|K]].
  - rewrite (poll_once_idle w K); simpl. unfold polled; now rewrite puts_after, Nat.add_0_r.
  - rewrite (poll_once_busy w K); simpl.
    unfold polled; now rewrite puts_slept, puts_after, Nat.add_0_r.
  - rewrite (poll_once_failed w K); simpl.
    unfold polled; now rewrite puts_slept, puts_after, Nat.add_0_r.
Qed.

End MonitorFacts.

(** ** Job monitor: the loop *)

Section LoopFacts.

Variable srv : Server.
Variables start_time timeout_seconds : Z.


Lemma monitor_loop_late fuel w :
  ~ in_time start_time timeout_seconds w -> monitor_loop srv (S fuel) start_time timeout_seconds w = Some (Return false, w).
Proof.
  intros H; cbn [monitor_loop].
  destruct (now w - start_time <? 1000 * timeout_seconds) eqn:E; trivial.
  apply Z.ltb_lt in E; contradiction.
Qed.

Lemma monitor_loop_turn fuel w :
  in_time start_time timeout_seconds w ->
  monitor_loop srv (S fuel) start_time timeout_seconds w =
  match poll_once srv w with
  | (Return (Some b), w') => Some (Return b, w')
  | (Return None, w') => monitor_loop srv fuel start_time timeout_seconds w'
  | (Raise e, w') => Some (Raise e, w')
  end.
Proof.
  intros H; cbn [monitor_loop].
  apply Z.ltb_lt in H; rewrite H; reflexivity.
Qed.

Lemma monitor_loop_idle fuel w :
  in_time start_time timeout_seconds w -> idle_poll srv w -> monitor_loop srv (S fuel) start_time timeout_seconds w = Some (Return true, polled srv w).
Proof.
  intros H K; rewrite monitor_loop_turn, (poll_once_idle srv w K); trivial.
Qed.

Lemma monitor_loop_busy fuel w :
  in_time start_time timeout_seconds w -> busy_poll srv w -> monitor_loop srv (S fuel) start_time timeout_seconds w = monitor_loop srv fuel start_time timeout_seconds (slept 500 (polled srv w)).
Proof.
  intros H K; rewrite monitor_loop_turn, (poll_once_busy srv w K); trivial.
Qed.

Lemma monitor_loop_failed fuel w :
  in_time start_time timeout_seconds w -> failed_poll srv w ->
  monitor_loop srv (S fuel) start_time timeout_seconds w = Some (Return true, slept 2000 (polled srv w)).
Proof.
  intros H K; rewrite monitor_loop_turn, (poll_once_failed srv w K); trivial.
Qed.

(** More fuel does not change a result. *)
Lemma monitor_loop_more_fuel fuel :
  forall fuel' w r, monitor_loop srv fuel start_time timeout_seconds w = Some r -> (fuel <= fuel')%nat -> monitor_loop srv fuel' start_time timeout_seconds w = Some r.
Proof.
  induction fuel as [|fuel IH]; intros fuel' w r H Hle; [discriminate|].
  destruct fuel' as [|fuel']; [lia|].
  destruct (Z_lt_dec (now w - start_time) (1000 * timeout_seconds)) as [Hin|Hout];
    fold (in_time start_time timeout_seconds w) in *.
  - rewrite monitor_loop_turn in * by trivial.
    destruct (poll_once srv w) as [[[b|]|e] w1]; trivial.
    apply IH; [trivial | lia].
  - rewrite monitor_loop_late in * by trivial; trivial.
Qed.

(** The loop returns: each turn that goes on costs half a second. *)
Lemma monitor_loop_enough n :
  forall w,
    1000 * timeout_seconds - (now w - start_time) <= 500 * Z.of_nat n ->
    exists r, monitor_loop srv (S n) start_time timeout_seconds w = Some r.
Proof.
  induction n as [|n IH]; intros w Hn.
  - rewrite monitor_loop_late by (unfold in_time; lia); eauto.
  - destruct (Z_lt_dec (now w - start_time) (1000 * timeout_seconds)) as [Hin|Hout];
    fold (in_time start_time timeout_seconds w) in *.
    + destruct (poll_kinds srv w) as [K|[K|K]].
      * rewrite monitor_loop_idle by trivial; eauto.
      * rewrite monitor_loop_busy by trivial.
        apply IH; unfold in_time, polled in *; rewrite now_slept, now_after; lia.
      * rewrite monitor_loop_failed by trivial; eauto.
    + rewrite monitor_loop_late by trivial; eauto.
Qed.

(** A result reached from a later loop test is the result of the run. *)
Lemma polling_result w w' :
  polling srv start_time timeout_seconds w w' ->
  forall fuel r, monitor_loop srv fuel start_time timeout_seconds w' = Some r -> exists fuel', monitor_loop srv fuel' start_time timeout_seconds w = Some r.
Proof.
  induction 1 as [w | w w' Hin Hbusy Hrest IH]; intros fuel r Hr.
  - eauto.
  - destruct (IH fuel r Hr) as [fuel' Hf].
    exists (S fuel'); rewrite monitor_loop_busy; trivial.
Qed.

(** The loop returns [False] only from a loop test that failed, reached
    through busy polls. *)
Lemma monitor_loop_false fuel :
  forall w w',
    monitor_loop srv fuel start_time timeout_seconds w = Some (Return false, w') ->
    polling srv start_time timeout_seconds w w' /\
    1000 * timeout_seconds <= now w' - start_time.
Proof.
  induction fuel as [|fuel IH]; intros w w' H; [discriminate|].
  destruct (Z_lt_dec (now w - start_time) (1000 * timeout_seconds)) as [Hin|Hout];
    fold (in_time start_time timeout_seconds w) in *.
  - destruct (poll_kinds srv w) as [K|[K|K]].
    + rewrite monitor_loop_idle in H by trivial; discriminate.
    + rewrite monitor_loop_busy in H by trivial.
      destruct (IH _ _ H) as [Hp Ht]; split; trivial.
      now apply polling_next.
    + rewrite monitor_loop_failed in H by trivial; discriminate.
  - rewrite monitor_loop_late in H by trivial; inv H.
    split; [apply polling_here | unfold in_time in Hout; lia].
Qed.

Lemma monitor_loop_returns fuel :
  forall w o w', monitor_loop srv fuel start_time timeout_seconds w = Some (o, w') -> exists b, o = Return b.
Proof.
  induction fuel as [|fuel IH]; intros w o w' H; [discriminate|].
  destruct (Z_lt_dec (now w - start_time) (1000 * timeout_seconds)) as [Hin|Hout];
    fold (in_time start_time timeout_seconds w) in *.
  - destruct (poll_kinds srv w) as [K|[K|K]].
    + rewrite monitor_loop_idle in H by trivial; inv H; eauto.
    + rewrite monitor_loop_busy in H by trivial; eauto.
    + rewrite monitor_loop_failed in H by trivial; inv H; eauto.
  - rewrite monitor_loop_late in H by trivial; inv H; eauto.
Qed.

Lemma monitor_loop_puts fuel :
  forall w o w', monitor_loop srv fuel start_time timeout_seconds w = Some (o, w') -> puts w' = puts w.
Proof.
  induction fuel as [|fuel IH]; intros w o w' H; [discriminate|].
  destruct (Z_lt_dec (now w - start_time) (1000 * timeout_seconds)) as [Hin|Hout];
    fold (in_time start_time timeout_seconds w) in *.
  - rewrite monitor_loop_turn in H by trivial.
    pose proof (poll_once_puts srv w) as Hp.
    destruct (poll_once srv w) as [[[b|]|e] w1]; simpl in Hp.
    + inv H; trivial.
    + rewrite (IH _ _ _ H); trivial.
    + inv H; trivial.
  - rewrite monitor_loop_late in H by trivial; inv H; trivial.
Qed.

End LoopFacts.

(** ** Job monitor: the function *)

Section MonitorJobsFacts.

Variable srv : Server.

(** [monitor_jobs] has fuel enough: the [None] branch of its definition is
    never taken. *)
Lemma monitor_jobs_fuel timeout_seconds w :
  exists r,
    monitor_loop srv (poll_budget timeout_seconds) (now w) timeout_seconds w = Some r.
Proof.
  unfold poll_budget; apply monitor_loop_enough.
  lia.
Qed.

(** Whatever some amount of fuel yields is what [monitor_jobs] returns. *)
Lemma monitor_jobs_eq timeout_seconds w fuel r :
  monitor_loop srv fuel (now w) timeout_seconds w = Some r ->
  monitor_jobs srv timeout_seconds w = r.
Proof.
  intros H; unfold monitor_jobs.
  destruct (monitor_jobs_fuel timeout_seconds w) as [r0 H0]; rewrite H0.
  destruct (Nat.le_ge_cases fuel (poll_budget timeout_seconds)) as [Hle|Hle].
  - rewrite (monitor_loop_more_fuel _ _ _ _ _ _ _ H Hle) in H0; congruence.
  - rewrite (monitor_loop_more_fuel _ _ _ _ _ _ _ H0 Hle) in H; congruence.
Qed.

Lemma monitor_jobs_returns timeout_seconds w :
  exists b, fst (monitor_jobs srv timeout_seconds w) = Return b.
Proof.
  unfold monitor_jobs.
  destruct (monitor_jobs_fuel timeout_seconds w) as [[o w'] H0]; rewrite H0.
  simpl; eapply monitor_loop_returns; eauto.
Qed.

Lemma monitor_jobs_puts timeout_seconds w :
  puts (snd (monitor_jobs srv timeout_seconds w)) = puts w.
Proof.
  unfold monitor_jobs.
  destruct (monitor_jobs_fuel timeout_seconds w) as [[o w'] H0]; rewrite H0.
  simpl; eapply monitor_loop_puts; eauto.
Qed.

End MonitorJobsFacts.

(** ** Job monitor: verdicts *)

(** A result the loop reaches at a later loop test is what [monitor_jobs]
    returns. *)
Lemma monitor_jobs_reaches srv timeout_seconds w0 w r :
  polling srv (now w0) timeout_seconds w0 w ->
  monitor_loop srv 1 (now w0) timeout_seconds w = Some r ->
  monitor_jobs srv timeout_seconds w0 = r.
Proof.
  intros Hp Hr.
  destruct (polling_result _ _ _ _ _ Hp _ _ Hr) as [fuel Hf].
  eapply monitor_jobs_eq; eauto.
Qed.

(** C2.  For every appliance, i.e. every sequence of job-poll responses:
    the monitor returns [True] as soon as a poll, reached within the timeout
    through polls that all found a pending job, yields an empty job list or a
    list with no job RUNNING or WAITING, and it stops right after that poll;
    and it returns [False] only when the elapsed time has reached the timeout
    and every poll made was answered with a list holding a RUNNING or WAITING
    job. *)
Theorem monitor_jobs_verdict (srv : Server) (timeout_seconds : Z) (w0 : World) :
  (forall w,
      polling srv (now w0) timeout_seconds w0 w ->
      in_time (now w0) timeout_seconds w ->
      idle_poll srv w ->
      monitor_jobs srv timeout_seconds w0 = (Return true, polled srv w))
  /\
  (forall w',
      monitor_jobs srv timeout_seconds w0 = (Return false, w') ->
      polling srv (now w0) timeout_seconds w0 w' /\
      1000 * timeout_seconds <= now w' - now w0).
Proof.
  split.
  - intros w Hp Hin Hidle.
    apply (monitor_jobs_reaches _ _ _ _ _ Hp).
    now apply monitor_loop_idle.
  - intros w' H.
    unfold monitor_jobs in H.
    destruct (monitor_jobs_fuel srv timeout_seconds w0) as [r Hr].
    rewrite Hr in H; subst r.
    eapply monitor_loop_false; eauto.
Qed.

Lemma monitor_jobs_verdict_witness :
  monitor_jobs quiet_server 30 world0 = (Return true, polled quiet_server world0)
  /\
  (polling busy_server 0 1 world0
     {| now := 1040;
        trace := [Sent GET_jobs; Slept 500; Sent GET_jobs; Slept 500] |}
   /\ 1000 * 1 <= 1040 - 0).
Proof.
  split.
  - apply (proj1 (monitor_jobs_verdict quiet_server 30 world0)).
    + apply polling_here.
    + reflexivity.
    + eexists; exists []; repeat split; try reflexivity; now left.
  - apply (proj2 (monitor_jobs_verdict busy_server 1 world0)).
    vm_compute; reflexivity.
Defined.

(** C3.  When a poll of the job monitor, reached within the timeout, fails
    (the request raises, the status is not 200, or the body does not decode)
    the monitor sleeps two seconds and returns [True]: it neither raises nor
    returns [False]. *)
Theorem monitor_jobs_poll_failure (srv : Server) (timeout_seconds : Z) (w0 w : World) :
  polling srv (now w0) timeout_seconds w0 w ->
  in_time (now w0) timeout_seconds w ->
  failed_poll srv w ->
  monitor_jobs srv timeout_seconds w0 = (Return true, slept 2000 (polled srv w)).
Proof.
  intros Hp Hin Hf.
  apply (monitor_jobs_reaches _ _ _ _ _ Hp).
  now apply monitor_loop_failed.
Qed.

Lemma monitor_jobs_poll_failure_witness :
  monitor_jobs jobless_server 30 world0
  = (Return true, {| now := 2020; trace := [Sent GET_jobs; Slept 2000] |}).
Proof.
  apply (monitor_jobs_poll_failure jobless_server 30 world0 world0).
  - apply polling_here.
  - reflexivity.
  - left; eexists; reflexivity.
Defined.

(** ** What a computation adds to the trace *)

Section TraceFacts.

Variable P : Event -> Prop.

Lemma adds_refl w : adds P w w.
Proof. exists []; split; [now rewrite app_nil_r | constructor]. Qed.

Lemma adds_trans w1 w2 w3 : adds P w1 w2 -> adds P w2 w3 -> adds P w1 w3.
Proof.
  intros (es & E & F) (es' & E' & F').
  exists (es ++ es')%list; split.
  - now rewrite E', E, app_assoc.
  - now apply Forall_app.
Qed.

Lemma adds_after rq lat w : P (Sent rq) -> adds P w (after rq lat w).
Proof. intros H; exists [Sent rq]; split; [reflexivity | now constructor]. Qed.

Lemma adds_slept ms w : P (Slept ms) -> adds P w (slept ms w).
Proof. intros H; exists [Slept ms]; split; [reflexivity | now constructor]. Qed.

Lemma adds_In w w' e : adds P w w' -> In e (trace w') -> In e (trace w) \/ P e.
Proof.
  intros (es & E & F) H; rewrite E in H.
  apply in_app_or in H as [H|H]; [now left | right].
  rewrite Forall_forall in F; auto.
Qed.

Lemma emits_ret {A} (a : A) : emits P (ret a).
Proof. intros w; apply adds_refl. Qed.

Lemma emits_raise {A} e : emits P (@raise A e).
Proof. intros w; apply adds_refl. Qed.

Lemma emits_bind {A B} (m : M A) (k : A -> M B) :
  emits P m -> (forall a, emits P (k a)) -> emits P (bind m k).
Proof.
  intros Hm Hk w; unfold bind.
  specialize (Hm w); destruct (m w) as [[a|e] w1]; simpl in *; trivial.
  eapply adds_trans; [eassumption | apply Hk].
Qed.

Lemma emits_try {A} (m : M A) (h : Exn -> M A) :
  emits P m -> (forall e, emits P (h e)) -> emits P (try m h).
Proof.
  intros Hm Hh w; unfold try.
  specialize (Hm w); destruct (m w) as [[a|e] w1]; simpl in *; trivial.
  eapply adds_trans; [eassumption | apply Hh].
Qed.

Lemma emits_send {A} rq (ep : World -> N * Reply A) :
  P (Sent rq) -> emits P (send rq ep).
Proof.
  intros H w; unfold send.
  destruct (ep w) as [lat [e|r]]; simpl; now apply adds_after.
Qed.

Lemma emits_decode {A} (r : Response A) : emits P (decode r).
Proof. intros w; unfold decode; destruct (json r); apply adds_refl. Qed.

Lemma emits_sleep ms : P (Slept ms) -> emits P (sleep ms).
Proof. intros H w; now apply adds_slept. Qed.

Lemma emits_subscript {A} key (v : option A) : emits P (subscript key v).
Proof. destruct v; [apply emits_ret | apply emits_raise]. Qed.

Lemma emits_for_each {A} (xs : list A) (body : A -> M unit) :
  (forall x, emits P (body x)) -> emits P (for_each xs body).
Proof.
  intros H; induction xs as [|x xs IH]; simpl.
  - apply emits_ret.
  - apply emits_bind; auto.
Qed.

Lemma emits_for_fold {A S} (xs : list A) (body : A -> S -> M S) :
  (forall x s, emits P (body x s)) -> forall s, emits P (for_fold xs body s).
Proof.
  intros H; induction xs as [|x xs IH]; intros s; simpl.
  - apply emits_ret.
  - apply emits_bind; auto.
Qed.

End TraceFacts.

Lemma adds_weaken (P Q : Event -> Prop) w w' :
  (forall e, P e -> Q e) -> adds P w w' -> adds Q w w'.
Proof.
  intros H (es & E & F); exists es; split; trivial.
  eapply Forall_impl; eauto.
Qed.

Lemma adds_puts w w' : adds (fun e => is_put e = false) w w' -> puts w' = puts w.
Proof.
  intros (es & E & F); unfold puts; rewrite E, filter_app, length_app.
  assert (H : filter is_put es = []).
  { clear E; induction F as [|e es He _ IH]; simpl; trivial.
    rewrite He; exact IH. }
  rewrite H; simpl; lia.
Qed.

Section EmitFacts.

Variable srv : Server.
Variable P : Event -> Prop.
Hypothesis HP : waits P.

Lemma poll_once_emits : emits P (poll_once srv).
Proof.
  destruct HP as [Hj Hs].
  unfold poll_once.
  apply emits_try; [apply emits_bind; [now apply emits_send|]|].
  - intros r; destruct (status_code r =? 200).
    + apply emits_bind; [apply emits_decode|].
      intros jobs; destruct (is_empty jobs); [apply emits_ret|].
      destruct (is_empty (running_jobs jobs)); [apply emits_ret|].
      apply emits_bind; [now apply emits_sleep | intros; apply emits_ret].
    + apply emits_bind; [now apply emits_sleep | intros; apply emits_ret].
  - intros e; apply emits_bind; [now apply emits_sleep | intros; apply emits_ret].
Qed.

Lemma monitor_loop_emits start_time timeout_seconds fuel :
  forall w r,
    monitor_loop srv fuel start_time timeout_seconds w = Some r -> adds P w (snd r).
Proof.
  induction fuel as [|fuel IH]; intros w r H; [discriminate|].
  cbn [monitor_loop] in H.
  destruct (now w - start_time <? 1000 * timeout_seconds).
  - pose proof (poll_once_emits w) as Hp.
    destruct (poll_once srv w) as [[[b|]|e] w1]; simpl in Hp.
    + inv H; trivial.
    + eapply adds_trans; eauto.
    + inv H; trivial.
  - inv H; apply adds_refl.
Qed.

Lemma monitor_jobs_emits timeout_seconds : emits P (monitor_jobs srv timeout_seconds).
Proof.
  intros w; unfold monitor_jobs.
  destruct (monitor_jobs_fuel srv timeout_seconds w) as [r Hr]; rewrite Hr.
  eapply monitor_loop_emits; eauto.
Qed.

End EmitFacts.

(** ** Two-phase delete: the phases *)

Section DeleteFacts.

Variable srv : Server.

Lemma hard_delete_emits P tunable_id :
  waits P -> P (Sent GET_tunable) -> P (Sent (DELETE_tunable tunable_id)) ->
  emits P (hard_delete srv tunable_id).
Proof.
  intros HP Hg Hd; unfold hard_delete.
  apply emits_bind; [now apply emits_send|].
  intros r; destruct (deleted_status (status_code r)); [|apply emits_ret].
  apply emits_bind; [now apply monitor_jobs_emits|]; intros _.
  apply emits_bind; [now apply emits_send|].
  intros r'; destruct (status_code r' =? 200); [|apply emits_ret].
  apply emits_bind; [apply emits_decode | intros; apply emits_ret].
Qed.

Lemma hard_delete_puts tunable_id w :
  puts (snd (hard_delete srv tunable_id w)) = puts w.
Proof.
  apply adds_puts, hard_delete_emits; try reflexivity.
  split; reflexivity.
Qed.

(** After an accepted DELETE and a list that decodes, the hard-delete phase
    reports whether the record left the list. *)
Lemma hard_delete_listed tunable_id w w1 tunables :
  deleted_then_listed srv tunable_id w w1 tunables ->
  hard_delete srv tunable_id w
  = (Return (negb (listed tunable_id tunables)),
     after GET_tunable (fst (get_tunables srv w1)) w1).
Proof.
  intros (r & r' & Hd & Hs & Hw1 & Hg & Hs' & Hj).
  unfold hard_delete; unmonad.
  destruct (del_tunable srv w tunable_id) as [lat rp]; simpl in *; subst rp.
  rewrite (proj2 (deleted_status_spec _) Hs).
  destruct (monitor_jobs_returns srv 10 (after (DELETE_tunable tunable_id) lat w)) as [b Hb].
  destruct (monitor_jobs srv 10 (after (DELETE_tunable tunable_id) lat w)) as [o wm].
  simpl in *; subst o w1.
  destruct (get_tunables srv wm) as [lat' rp']; simpl in *; subst rp'.
  rewrite Hs', Hj; reflexivity.
Qed.

Lemma hard_deleted_returns tunable_id w :
  hard_deleted srv tunable_id w ->
  exists w', hard_delete srv tunable_id w = (Return true, w').
Proof.
  intros (w1 & tunables & Hl & Habs).
  rewrite (hard_delete_listed _ _ _ _ Hl).
  destruct (listed tunable_id tunables) eqn:E; [|eauto].
  apply listed_present in E; contradiction.
Qed.

Lemma still_listed_returns tunable_id w :
  still_listed srv tunable_id w ->
  exists w', hard_delete srv tunable_id w = (Return false, w').
Proof.
  intros (w1 & tunables & Hl & Hpres).
  rewrite (hard_delete_listed _ _ _ _ Hl).
  apply listed_present in Hpres; rewrite Hpres; eauto.
Qed.

Lemma unverified_delete_returns tunable_id w w2 :
  unverified_delete srv tunable_id w w2 ->
  hard_delete srv tunable_id w = (Return false, w2).
Proof.
  intros (r & r' & w1 & Hd & Hs & Hw1 & Hg & Hs' & Hw2).
  unfold hard_delete; unmonad.
  destruct (del_tunable srv w tunable_id) as [lat rp]; simpl in *; subst rp.
  rewrite (proj2 (deleted_status_spec _) Hs).
  destruct (monitor_jobs_returns srv 10 (after (DELETE_tunable tunable_id) lat w)) as [b Hb].
  destruct (monitor_jobs srv 10 (after (DELETE_tunable tunable_id) lat w)) as [o wm].
  simpl in *; subst o w1.
  destruct (get_tunables srv wm) as [lat' rp']; simpl in *; subst rp' w2.
  apply Z.eqb_neq in Hs'; rewrite Hs'; reflexivity.
Qed.

(** The hard-delete phase returns [True] only when the record left the list. *)
Lemma hard_delete_true tunable_id w w' :
  hard_delete srv tunable_id w = (Return true, w') -> hard_deleted srv tunable_id w.
Proof.
  intros H.
  destruct (del_tunable srv w tunable_id) as [lat [e|r]] eqn:Hd;
    [unfold hard_delete in H; unmonad; rewrite Hd in H; discriminate|].
  destruct (deleted_status (status_code r)) eqn:Hs;
    [|unfold hard_delete in H; unmonad; rewrite Hd, Hs in H; discriminate].
  set (w1 := snd (monitor_jobs srv 10 (after (DELETE_tunable tunable_id) lat w))).
  destruct (get_tunables srv w1) as [lat' [e|r']] eqn:Hg.
  - exfalso; unfold hard_delete in H; unmonad; rewrite Hd, Hs in H.
    destruct (monitor_jobs_returns srv 10 (after (DELETE_tunable tunable_id) lat w)) as [b Hb].
    subst w1.
    destruct (monitor_jobs srv 10 (after (DELETE_tunable tunable_id) lat w)) as [o wm].
    simpl in *; subst o; rewrite Hg in H; discriminate.
  - destruct (Z.eq_dec (status_code r') 200) as [Hs'|Hs'].
    + destruct (json r') as [e|tunables] eqn:Hj.
      * exfalso; unfold hard_delete in H; unmonad; rewrite Hd, Hs in H.
        destruct (monitor_jobs_returns srv 10 (after (DELETE_tunable tunable_id) lat w))
          as [b Hb].
        subst w1.
        destruct (monitor_jobs srv 10 (after (DELETE_tunable tunable_id) lat w)) as [o wm].
        simpl in *; subst o; rewrite Hg, Hs', Hj in H; discriminate.
      * assert (Hl : deleted_then_listed srv tunable_id w w1 tunables).
        { exists r, r'; rewrite Hd, Hg; simpl.
          repeat split; trivial; now apply deleted_status_spec. }
        exists w1, tunables; split; trivial.
        rewrite (hard_delete_listed _ _ _ _ Hl) in H.
        intros Hp; apply listed_present in Hp; rewrite Hp in H; discriminate.
    + exfalso.
      assert (Hu : unverified_delete srv tunable_id w
                     (after GET_tunable (fst (get_tunables srv w1)) w1)).
      { exists r, r', w1; rewrite Hd, Hg; simpl.
        repeat split; trivial; now apply deleted_status_spec. }
      rewrite (unverified_delete_returns _ _ _ Hu) in H; discriminate.
Qed.

Lemma soft_disable_puts tunable_id w :
  puts (snd (soft_disable srv tunable_id w)) = S (puts w).
Proof.
  unfold soft_disable; unmonad.
  destruct (put_tunable srv w tunable_id false) as [lat [e|r]]; simpl.
  - rewrite puts_after; simpl; lia.
  - destruct (status_code r =? 200); simpl.
    + destruct (monitor_jobs_returns srv 10 (after (PUT_tunable tunable_id false) lat w))
        as [b Hb].
      pose proof (monitor_jobs_puts srv 10 (after (PUT_tunable tunable_id false) lat w)) as Hp.
      destruct (monitor_jobs srv 10 (after (PUT_tunable tunable_id false) lat w)) as [o wm].
      simpl in *; subst o; simpl; rewrite Hp, puts_after; simpl; lia.
    + rewrite puts_after; simpl; lia.
Qed.

(** The soft-disable phase hands back the status of the PUT response, and
    raises when the PUT raises. *)
Lemma soft_disable_outcome tunable_id w :
  match snd (put_tunable srv w tunable_id false) with
  | Answered r => fst (soft_disable srv tunable_id w) = Return (status_code r)
  | Failed e => fst (soft_disable srv tunable_id w) = Raise e
  end.
Proof.
  unfold soft_disable; unmonad.
  destruct (put_tunable srv w tunable_id false) as [lat [e|r]]; simpl; trivial.
  destruct (status_code r =? 200) eqn:E; simpl; trivial.
  destruct (monitor_jobs_returns srv 10 (after (PUT_tunable tunable_id false) lat w))
    as [b Hb].
  destruct (monitor_jobs srv 10 (after (PUT_tunable tunable_id false) lat w)) as [o wm].
  simpl in *; subst o; simpl.
  apply Z.eqb_eq in E; congruence.
Qed.

Lemma soft_disable_succeeds tunable_id w :
  fst (soft_disable srv tunable_id w) = Return 200 <-> disable_succeeds srv tunable_id w.
Proof.
  pose proof (soft_disable_outcome tunable_id w) as H.
  unfold disable_succeeds.
  destruct (snd (put_tunable srv w tunable_id false)) as [e|r]; rewrite H; split.
  - discriminate.
  - intros (r & Hr & _); discriminate.
  - intros E; exists r; split; congruence.
  - intros (r0 & Hr & Hs); congruence.
Qed.

End DeleteFacts.

Lemma Outcome_true_dec (o : Outcome bool) : {o = Return true} + {o <> Return true}.
Proof. destruct o as [[|]|e]; [left | right | right]; congruence. Qed.

(** ** Two-phase delete: the two functions *)

Section TwoPhase.

Variable srv : Server.

(** [TrueNASAPI.delete_tunable] in terms of its two phases. *)
Lemma delete_tunable_phases tunable_id w :
  delete_tunable srv tunable_id w =
  match hard_delete srv tunable_id w with
  | (Return true, w1) => (Return (true, "Deleted successfully"), w1)
  | (Return false, w1) =>
      match soft_disable srv tunable_id w1 with
      | (Return status, w2) =>
          if status =? 200 then (Return (true, "Disabled successfully"), w2)
          else (Return (false, "Failed to delete tunable " ++ str_id tunable_id
                               ++ " (HTTP " ++ str_int status ++ ")"), w2)
      | (Raise e, w2) => (Return (false, "Delete error: " ++ str_exn e), w2)
      end
  | (Raise e, w1) => (Return (false, "Delete error: " ++ str_exn e), w1)
  end.
Proof.
  unfold delete_tunable; unmonad.
  destruct (hard_delete srv tunable_id w) as [[[|]|e] w1]; trivial.
  destruct (soft_disable srv tunable_id w1) as [[status|e] w2]; trivial.
  destruct (status =? 200); reflexivity.
Qed.

(** [delete_tunable_rest] in terms of its two phases. *)
Lemma delete_tunable_rest_phases tunable_id w :
  Cleanup.delete_tunable_rest srv tunable_id w =
  let failure :=
    Raise (OtherException ("Failed to delete tunable " ++ str_id tunable_id
                           ++ " using all methods")) in
  match hard_delete srv tunable_id w with
  | (Return true, w1) => (Return true, w1)
  | (_, w1) =>
      match soft_disable srv tunable_id w1 with
      | (Return status, w2) => if status =? 200 then (Return true, w2) else (failure, w2)
      | (Raise _, w2) => (failure, w2)
      end
  end.
Proof.
  unfold Cleanup.delete_tunable_rest; unmonad.
  destruct (hard_delete srv tunable_id w) as [[[|]|e] w1]; trivial;
    destruct (soft_disable srv tunable_id w1) as [[status|e'] w2]; trivial;
    destruct (status =? 200); reflexivity.
Qed.

(** [delete_tunable] never raises. *)
Lemma delete_tunable_returns tunable_id w :
  exists ok msg w', delete_tunable srv tunable_id w = (Return (ok, msg), w').
Proof.
  rewrite delete_tunable_phases.
  destruct (hard_delete srv tunable_id w) as [[[|]|e] w1]; eauto.
  destruct (soft_disable srv tunable_id w1) as [[status|e] w2]; eauto.
  destruct (status =? 200); eauto.
Qed.

End TwoPhase.

(** X27.  What both two-phase deletes guarantee.  Success is reported only
    if the hard-delete phase left the record absent from the list fetched
    afterwards, or the disabling PUT was sent and answered 200.  When the
    hard delete leaves the record present in that list, exactly one PUT is
    sent and the call succeeds exactly when that PUT answers 200.
    [delete_tunable_rest] fails only when neither phase succeeded;
    [TrueNASAPI.delete_tunable] fails only when the hard delete did not
    succeed and either that phase raised, in which case no PUT was sent, or
    the PUT did not answer 200. *)
Theorem two_phase_delete_verdicts (srv : Server) (tunable_id : PyId) (w : World) :
  (forall ok msg w',
      delete_tunable srv tunable_id w = (Return (ok, msg), w') ->
      (ok = true ->
       hard_deleted srv tunable_id w \/
       exists w1,
         hard_delete srv tunable_id w = (Return false, w1) /\
         disable_succeeds srv tunable_id w1) /\
      (still_listed srv tunable_id w ->
       puts w' = S (puts w) /\
       (ok = true <->
        disable_succeeds srv tunable_id (snd (hard_delete srv tunable_id w)))) /\
      (ok = false ->
       ~ hard_deleted srv tunable_id w /\
       ((exists e w1, hard_delete srv tunable_id w = (Raise e, w1) /\ puts w' = puts w) \/
        ~ soft_disabled_rest srv tunable_id w)))
  /\
  (forall o w',
      Cleanup.delete_tunable_rest srv tunable_id w = (o, w') ->
      (o = Return true ->
       hard_deleted srv tunable_id w \/ soft_disabled_rest srv tunable_id w) /\
      (still_listed srv tunable_id w ->
       puts w' = S (puts w) /\
       (o = Return true <->
        disable_succeeds srv tunable_id (snd (hard_delete srv tunable_id w)))) /\
      (o <> Return true ->
       ~ hard_deleted srv tunable_id w /\ ~ soft_disabled_rest srv tunable_id w)).
Proof.
  split.
  - intros ok msg w' H; rewrite delete_tunable_phases in H.
    pose proof (hard_delete_puts srv tunable_id w) as Hp1.
    pose proof (hard_delete_true srv tunable_id w) as Ht.
    destruct (hard_delete srv tunable_id w) as [[[|]|e] w1] eqn:Hh; simpl in *.
    + (* deleted *)
      inv H; split; [|split].
      * intros _; left; eauto.
      * intros Hs; apply still_listed_returns in Hs as [w2 Hs]; congruence.
      * discriminate.
    + (* fell through to the PUT *)
      pose proof (soft_disable_puts srv tunable_id w1) as Hp2.
      pose proof (soft_disable_succeeds srv tunable_id w1) as Hd.
      assert (Hnot : ~ hard_deleted srv tunable_id w).
      { intros Hx; apply hard_deleted_returns in Hx as [w2 Hx]; congruence. }
      assert (Hsoft : soft_disabled_rest srv tunable_id w
                      <-> disable_succeeds srv tunable_id w1).
      { split; [intros (o2 & w2 & E & _ & D); congruence|].
        intros D; exists (Return false), w1; repeat split; trivial; discriminate. }
      destruct (soft_disable srv tunable_id w1) as [[status|e] w2]; simpl in *.
      * destruct (Z.eqb_spec status 200) as [->|Hne]; inv H.
        -- split; [|split].
           ++ intros _; right; exists w1; split; [reflexivity | now apply Hd].
           ++ intros _; split; [lia|]. split; [intros _; now apply Hd | trivial].
           ++ discriminate.
        -- assert (Hno : ~ disable_succeeds srv tunable_id w1)
             by (intros D; apply Hd in D; congruence).
           split; [|split].
           ++ discriminate.
           ++ intros _; split; [lia|]. split; [discriminate | intros D; contradiction].
           ++ intros _; split; trivial. right; now rewrite Hsoft.
      * inv H.
        assert (Hno : ~ disable_succeeds srv tunable_id w1)
          by (intros D; apply Hd in D; congruence).
        split; [|split].
        -- discriminate.
        -- intros _; split; [lia|]. split; [discriminate | intros D; contradiction].
        -- intros _; split; trivial. right; now rewrite Hsoft.
    + (* the hard-delete phase raised *)
      inv H; split; [|split].
      * discriminate.
      * intros Hs; apply still_listed_returns in Hs as [w2 Hs]; congruence.
      * intros _; split.
        -- intros Hx; apply hard_deleted_returns in Hx as [w2 Hx]; congruence.
        -- left; exists e, w'; split; [reflexivity | exact Hp1].
  - intros o w' H; rewrite delete_tunable_rest_phases in H; cbv zeta in H.
    pose proof (hard_delete_puts srv tunable_id w) as Hp1.
    pose proof (hard_delete_true srv tunable_id w) as Ht.
    destruct (hard_delete srv tunable_id w) as [o1 w1] eqn:Hh; simpl in *.
    destruct (Outcome_true_dec o1) as [->|Hne1].
    + inv H; split; [|split].
      * intros _; left; eauto.
      * intros Hs; apply still_listed_returns in Hs as [w2 Hs]; congruence.
      * congruence.
    + pose proof (soft_disable_puts srv tunable_id w1) as Hp2.
      pose proof (soft_disable_succeeds srv tunable_id w1) as Hd.
      assert (Hnot : ~ hard_deleted srv tunable_id w).
      { intros Hx; apply hard_deleted_returns in Hx as [w2 Hx]; congruence. }
      assert (Hsoft : soft_disabled_rest srv tunable_id w
                      <-> disable_succeeds srv tunable_id w1).
      { split; [intros (o2 & w2 & E & _ & D); congruence
               | intros D; exists o1, w1; auto]. }
      assert (H' : (o, w') =
                   match soft_disable srv tunable_id w1 with
                   | (Return status, w2) =>
                       if status =? 200 then (Return true, w2)
                       else (Raise (OtherException
                                      ("Failed to delete tunable " ++ str_id tunable_id
                                       ++ " using all methods")), w2)
                   | (Raise _, w2) =>
                       (Raise (OtherException
                                 ("Failed to delete tunable " ++ str_id tunable_id
                                  ++ " using all methods")), w2)
                   end).
      { destruct o1 as [[|]|e]; [congruence | auto | auto]. }
      clear H.
      destruct (soft_disable srv tunable_id w1) as [[status|e] w2]; simpl in *.
      * destruct (Z.eqb_spec status 200) as [->|Hne]; inv H'.
        -- split; [|split].
           ++ intros _; right; apply Hsoft, Hd; trivial.
           ++ intros _; split; [lia|]. split; [intros _; now apply Hd | trivial].
           ++ congruence.
        -- assert (Hno : ~ disable_succeeds srv tunable_id w1)
             by (intros D; apply Hd in D; congruence).
           split; [|split].
           ++ discriminate.
           ++ intros _; split; [lia|]. split; [discriminate | intros D; contradiction].
           ++ intros _; split; trivial. now rewrite Hsoft.
      * inv H'.
        assert (Hno : ~ disable_succeeds srv tunable_id w1)
          by (intros D; apply Hd in D; congruence).
        split; [|split].
        -- discriminate.
        -- intros _; split; [lia|]. split; [discriminate | intros D; contradiction].
        -- intros _; split; trivial. now rewrite Hsoft.
Qed.

Lemma two_phase_delete_verdicts_witness :
  puts {| now := 100;
          trace := [Sent (DELETE_tunable (Some 7)); Sent GET_jobs; Sent GET_tunable;
                    Sent (PUT_tunable (Some 7) false); Sent GET_jobs] |}
  = S (puts world0)
  /\
  (true = true <->
   disable_succeeds sticky_server (Some 7)
     (snd (hard_delete sticky_server (Some 7) world0))).
Proof.
  refine (proj1 (proj2 (proj1 (two_phase_delete_verdicts sticky_server (Some 7) world0)
                          true "Disabled successfully" _ _)) _).
  - vm_compute; reflexivity.
  - eexists; exists [remote 7 "vm.swappiness" ""]; split.
    + eexists; eexists; repeat split; try reflexivity; now left.
    + exists (remote 7 "vm.swappiness" ""); split; [now left | reflexivity].
Defined.

(** C1.  The claim fails for [TrueNASAPI.delete_tunable]: on
    [flaky_delete_server] the DELETE request raises, the function reports
    failure after that one request, and the soft-disable PUT, which would be
    answered 200, is never sent, so failure is reported with one phase
    failed and the other not tried.  [delete_tunable_rest], on the same
    appliance, goes on to the PUT and succeeds. *)
Theorem delete_tunable_gives_up :
  delete_tunable flaky_delete_server (Some 7) world0
  = (Return (false, "Delete error: connection reset"),
     {| now := 20; trace := [Sent (DELETE_tunable (Some 7))] |})
  /\
  disable_succeeds flaky_delete_server (Some 7)
    {| now := 20; trace := [Sent (DELETE_tunable (Some 7))] |}
  /\
  Cleanup.delete_tunable_rest flaky_delete_server (Some 7) world0
  = (Return true,
     {| now := 60;
        trace := [Sent (DELETE_tunable (Some 7)); Sent (PUT_tunable (Some 7) false);
                  Sent GET_jobs] |}).
Proof.
  split; [vm_compute; reflexivity|].
  split; [|vm_compute; reflexivity].
  eexists; split; reflexivity.
Qed.

(** The soft-disable phase starts by sending the PUT. *)
Lemma soft_disable_trace srv tunable_id w :
  exists rest,
    trace (snd (soft_disable srv tunable_id w))
    = (trace w ++ Sent (PUT_tunable tunable_id false) :: rest)%list.
Proof.
  unfold soft_disable; unmonad.
  destruct (put_tunable srv w tunable_id false) as [lat [e|r]]; simpl.
  - exists []; reflexivity.
  - destruct (status_code r =? 200); simpl; [|exists []; reflexivity].
    destruct (monitor_jobs_emits srv (fun _ => True) (conj I (fun _ => I)) 10
                (after (PUT_tunable tunable_id false) lat w)) as (es & E & _).
    destruct (monitor_jobs srv 10 (after (PUT_tunable tunable_id false) lat w)) as [[b|e] wm];
      simpl in *; exists es; rewrite E, <- app_assoc; reflexivity.
Qed.

(** C6, as amended.  When the DELETE request answers 200 or 204 and the list
    fetched afterwards (status 200) has no entry with the id, the delete
    succeeds with "Deleted successfully" and no soft-disable PUT is sent. *)
Theorem delete_already_gone (srv : Server) (tunable_id : PyId) (w : World) :
  hard_deleted srv tunable_id w ->
  exists w',
    delete_tunable srv tunable_id w = (Return (true, "Deleted successfully"), w') /\
    puts w' = puts w.
Proof.
  intros H; apply hard_deleted_returns in H as [w' H].
  exists w'; rewrite delete_tunable_phases, H; split; trivial.
  pose proof (hard_delete_puts srv tunable_id w) as Hp; rewrite H in Hp; exact Hp.
Qed.

Lemma delete_already_gone_witness :
  exists w',
    delete_tunable quiet_server (Some 7) world0
    = (Return (true, "Deleted successfully"), w') /\
    puts w' = puts world0.
Proof.
  apply (delete_already_gone quiet_server (Some 7) world0).
  eexists; exists []; split.
  - eexists; eexists; repeat split; try reflexivity; now left.
  - intros (t & [] & _).
Defined.

(** C6, as stated, fails: the list endpoint of [gone_server] reports id 7
    absent, the DELETE of the unknown id answers 404, so the code goes on to
    the PUT and reports failure. *)
Lemma delete_absent_id_counterexample :
  reports_absent gone_server (Some 7) /\
  ~ (exists msg w',
        delete_tunable gone_server (Some 7) world0 = (Return (true, msg), w') /\
        puts w' = puts world0).
Proof.
  split.
  - intros w; eexists; exists []; repeat split; try reflexivity.
    intros (t & [] & _).
  - intros (msg & w' & H & _); vm_compute in H; discriminate.
Qed.

(** C10.  In both scripts: when the DELETE request answers 200 or 204 but
    the list request that follows answers with a status other than 200, the
    soft-disable PUT is sent all the same, exactly once, and its answer
    decides: 200 gives "Disabled successfully" (validate_tunables.py) or
    [True] (cleanup_test_tunables.py), anything else gives failure. *)
Theorem delete_unverified_falls_back
        (srv : Server) (tunable_id : PyId) (w w2 : World) :
  unverified_delete srv tunable_id w w2 ->
  (exists ok msg w' rest,
      delete_tunable srv tunable_id w = (Return (ok, msg), w') /\
      trace w' = (trace w2 ++ Sent (PUT_tunable tunable_id false) :: rest)%list /\
      puts w' = S (puts w) /\
      (disable_succeeds srv tunable_id w2 -> (ok, msg) = (true, "Disabled successfully")) /\
      (~ disable_succeeds srv tunable_id w2 -> ok = false))
  /\
  (exists o w' rest,
      Cleanup.delete_tunable_rest srv tunable_id w = (o, w') /\
      trace w' = (trace w2 ++ Sent (PUT_tunable tunable_id false) :: rest)%list /\
      puts w' = S (puts w) /\
      (disable_succeeds srv tunable_id w2 -> o = Return true) /\
      (~ disable_succeeds srv tunable_id w2 -> exists e, o = Raise e)).
Proof.
  intros Hu; apply unverified_delete_returns in Hu.
  pose proof (hard_delete_puts srv tunable_id w) as Hp1; rewrite Hu in Hp1; simpl in Hp1.
  pose proof (soft_disable_puts srv tunable_id w2) as Hp2.
  pose proof (soft_disable_succeeds srv tunable_id w2) as Hd.
  destruct (soft_disable_trace srv tunable_id w2) as [rest Htr].
  split.
  - rewrite delete_tunable_phases, Hu.
    destruct (soft_disable srv tunable_id w2) as [[status|e] w3]; simpl in *.
    + destruct (Z.eqb_spec status 200) as [->|Hne].
      * do 3 eexists; exists rest; repeat split; trivial; try lia.
        intros Hno; exfalso; apply Hno, Hd; trivial.
      * do 3 eexists; exists rest; repeat split; trivial; try lia.
        intros D; apply Hd in D; congruence.
    + do 3 eexists; exists rest; repeat split; trivial; try lia.
      intros D; apply Hd in D; congruence.
  - rewrite delete_tunable_rest_phases, Hu; cbv zeta.
    destruct (soft_disable srv tunable_id w2) as [[status|e] w3]; simpl in *.
    + destruct (Z.eqb_spec status 200) as [->|Hne].
      * do 2 eexists; exists rest; repeat split; trivial; try lia.
        intros Hno; exfalso; apply Hno, Hd; trivial.
      * do 2 eexists; exists rest; repeat split; trivial; try lia.
        -- intros D; apply Hd in D; congruence.
        -- eauto.
    + do 2 eexists; exists rest; repeat split; trivial; try lia.
      * intros D; apply Hd in D; congruence.
      * eauto.
Qed.

Lemma delete_unverified_falls_back_witness :
  (exists ok msg w' rest,
      delete_tunable unlisted_server (Some 7) world0 = (Return (ok, msg), w') /\
      trace w' = (trace unlisted_world ++ Sent (PUT_tunable (Some 7) false) :: rest)%list /\
      puts w' = S (puts world0) /\
      (disable_succeeds unlisted_server (Some 7) unlisted_world ->
       (ok, msg) = (true, "Disabled successfully")) /\
      (~ disable_succeeds unlisted_server (Some 7) unlisted_world -> ok = false))
  /\
  (exists o w' rest,
      Cleanup.delete_tunable_rest unlisted_server (Some 7) world0 = (o, w') /\
      trace w' = (trace unlisted_world ++ Sent (PUT_tunable (Some 7) false) :: rest)%list /\
      puts w' = S (puts world0) /\
      (disable_succeeds unlisted_server (Some 7) unlisted_world -> o = Return true) /\
      (~ disable_succeeds unlisted_server (Some 7) unlisted_world ->
       exists e, o = Raise e)).
Proof.
  apply (delete_unverified_falls_back unlisted_server (Some 7) world0 unlisted_world).
  eexists; eexists; eexists; repeat split; try reflexivity.
  - now right.
  - discriminate.
Defined.

(** ** Creation *)

Lemma try_returns {A} (m : M A) (h : Exn -> M A) w :
  (forall e w1, exists a w', h e w1 = (Return a, w')) ->
  exists a w', try m h w = (Return a, w').
Proof.
  intros H; unfold try.
  destruct (m w) as [[a|e] w1]; eauto.
Qed.

Section CreateFacts.

Variable srv : Server.

(** [create_tunable] never raises. *)
Lemma create_tunable_returns tunable w :
  exists r w', create_tunable srv tunable w = (Return r, w').
Proof.
  unfold create_tunable; apply try_returns.
  intros [m|m] w1; unfold ret; eauto.
Qed.

Lemma create_tunable_emits P tunable :
  waits P -> P (Sent GET_tunable) -> P (Sent (POST_tunable (create_data tunable))) ->
  emits P (create_tunable srv tunable).
Proof.
  intros HP Hg Hpost; unfold create_tunable.
  apply emits_try; [|intros [m|m]; apply emits_ret].
  apply emits_bind; [now apply emits_send|].
  intros r; destruct (status_code r =? 200); [|apply emits_ret].
  apply emits_bind; [apply emits_decode|]; intros body.
  apply emits_bind; [now apply monitor_jobs_emits|]; intros _.
  apply emits_bind; [now apply emits_send|]; intros r'.
  apply emits_bind.
  - destruct (status_code r' =? 200); [|apply emits_ret].
    apply emits_bind; [apply emits_decode | intros; apply emits_ret].
  - intros [t|]; apply emits_ret.
Qed.

(** The first thing [create_tunable] does is to post [create_data tunable]. *)
Lemma create_tunable_posts tunable w :
  exists rest,
    trace (snd (create_tunable srv tunable w))
    = (trace w ++ Sent (POST_tunable (create_data tunable)) :: rest)%list.
Proof.
  unfold create_tunable, try, bind at 1, send at 1.
  destruct (post_tunable srv w (create_data tunable)) as [lat [e|r]].
  - destruct e; exists []; reflexivity.
  - set (w1 := after (POST_tunable (create_data tunable)) lat w).
    match goal with
    | |- context [match ?k w1 with _ => _ end] =>
        assert (Hk : adds (fun _ => True) w1 (snd (k w1)));
          [|destruct (k w1) as [[a|e] w2]]
    end.
    + destruct (status_code r =? 200); [|apply adds_refl].
      revert w1; apply emits_bind; [apply emits_decode|]; intros body.
      apply emits_bind; [apply monitor_jobs_emits; split; trivial|]; intros _.
      apply emits_bind; [now apply emits_send|]; intros r'.
      apply emits_bind.
      * destruct (status_code r' =? 200); [|apply emits_ret].
        apply emits_bind; [apply emits_decode | intros; apply emits_ret].
      * intros [t|]; apply emits_ret.
    + destruct Hk as (es & E & _); exists es; simpl in *.
      rewrite E; unfold w1; simpl; now rewrite <- app_assoc.
    + destruct Hk as (es & E & _); exists es; simpl in *.
      destruct e; simpl; rewrite E; unfold w1; simpl; now rewrite <- app_assoc.
Qed.

(** X6.  After a creation that answered 200, when the list request is answered,
    [create_tunable] reports success: with the id of the first entry of that
    name when the list decodes and has one, with the id of the creation
    response otherwise. *)
Lemma create_tunable_resolves tunable w creation_id w2 r' :
  created srv tunable w creation_id w2 ->
  snd (get_tunables srv w2) = Answered r' ->
  (status_code r' = 200 -> exists tunables, json r' = inr tunables) ->
  let found :=
    if status_code r' =? 200 then
      match json r' with
      | inr tunables => find_by_var (name tunable) tunables
      | inl _ => None
      end
    else None in
  create_tunable srv tunable w
  = (Return match found with
            | Some t =>
                (true, rt_id t,
                 "Created successfully (actual ID: " ++ str_id (rt_id t) ++ ")")
            | None =>
                (true, creation_id,
                 "Created successfully (creation ID: " ++ str_id creation_id ++ ")")
            end,
     after GET_tunable (fst (get_tunables srv w2)) w2).
Proof.
  intros (r & body & Hp & Hs & Hj & Hid & Hw2) Hg Hdec found.
  unfold create_tunable; unmonad.
  destruct (post_tunable srv w (create_data tunable)) as [lat rp]; simpl in *; subst rp.
  rewrite Hs, Hj; simpl.
  fold (creation_timeout tunable).
  destruct (monitor_jobs_returns srv (creation_timeout tunable)
              (after (POST_tunable (create_data tunable)) lat w)) as [b Hb].
  destruct (monitor_jobs srv (creation_timeout tunable)
              (after (POST_tunable (create_data tunable)) lat w)) as [o wm].
  simpl in *; subst o w2.
  destruct (get_tunables srv wm) as [lat' rp']; simpl in *; subst rp'.
  subst found.
  destruct (Z.eqb_spec (status_code r') 200) as [E|E].
  - destruct (Hdec E) as [tunables Ht]; rewrite Ht; simpl.
    destruct (find_by_var (name tunable) tunables); subst; reflexivity.
  - subst; reflexivity.
Qed.

(** But when the list request raises, the creation that answered 200 is
    reported as a failure, with no id. *)
Lemma create_tunable_relist_failed tunable w creation_id w2 e :
  created srv tunable w creation_id w2 ->
  snd (get_tunables srv w2) = Failed e ->
  exists msg,
    create_tunable srv tunable w
    = (Return (false, None, msg), after GET_tunable (fst (get_tunables srv w2)) w2).
Proof.
  intros (r & body & Hp & Hs & Hj & Hid & Hw2) Hg.
  unfold create_tunable; unmonad.
  destruct (post_tunable srv w (create_data tunable)) as [lat rp]; simpl in *; subst rp.
  rewrite Hs, Hj; simpl.
  fold (creation_timeout tunable).
  destruct (monitor_jobs_returns srv (creation_timeout tunable)
              (after (POST_tunable (create_data tunable)) lat w)) as [b Hb].
  destruct (monitor_jobs srv (creation_timeout tunable)
              (after (POST_tunable (create_data tunable)) lat w)) as [o wm].
  simpl in *; subst o w2.
  destruct (get_tunables srv wm) as [lat' rp']; simpl in *; subst rp'.
  destruct e; eauto.
Qed.

End CreateFacts.

(** C5.  The claim does not hold when the list request raises: on
    [flaky_list_server] the POST answers 200 with id 7 and the job list is
    empty, but listing the tunables raises; [create_tunable] then reports
    failure and no id, instead of success with the creation id 7. *)
Theorem create_tunable_relist_raises :
  create_tunable flaky_list_server
    (Validate.tunable "vm.swappiness" "SYSCTL" "1"
                      "Minimizes swap usage with 192GB RAM available")
    world0
  = (Return (false, None, "Request error: connection reset"),
     {| now := 60;
        trace :=
          [Sent (POST_tunable
                   {| cd_var := "vm.swappiness"; cd_value := "1"; cd_type := "SYSCTL";
                      cd_comment := "Minimizes swap usage with 192GB RAM available";
                      cd_enabled := true |});
           Sent GET_jobs; Sent GET_tunable] |}).
Proof. vm_compute; reflexivity. Qed.

(** C7.  The comment of the creation request is at most 255 characters long:
    [create_tunable] starts by posting [create_data tunable], whose comment
    is the description cut at 255, and whatever it sends is a creation
    request with such a comment or no creation request at all. *)
Theorem create_comment_bounded (srv : Server) (tunable : Tunable) (w : World) :
  (String.length (cd_comment (create_data tunable)) <= 255)%nat /\
  cd_comment (create_data tunable) = slice_to 255 (description tunable) /\
  (exists rest,
      trace (snd (create_tunable srv tunable w))
      = (trace w ++ Sent (POST_tunable (create_data tunable)) :: rest)%list) /\
  adds comment_bounded w (snd (create_tunable srv tunable w)).
Proof.
  split; [apply slice_to_length|].
  split; [reflexivity|].
  split; [apply create_tunable_posts|].
  apply create_tunable_emits.
  - split; [exact I | intros ms; exact I].
  - exact I.
  - exact (slice_to_length 255 (description tunable)).
Qed.

(** ** Validation workflow *)

Section WorkflowFacts.

Variable srv : Server.

(** [get_tunable] never raises. *)
Lemma get_tunable_returns tunable_id tunable_name w :
  exists r w', get_tunable srv tunable_id tunable_name w = (Return r, w').
Proof.
  unfold get_tunable; apply try_returns.
  intros e w1; unfold ret; eauto.
Qed.

(** The loop body in terms of the three client calls. *)
Lemma test_tunable_returns tunable acc w :
  exists acc' w', Validate.test_tunable srv tunable acc w = (Return acc', w').
Proof.
  unfold Validate.test_tunable, bind.
  destruct (create_tunable_returns srv tunable w) as ([[success tunable_id] message] & w1 & Hc).
  rewrite Hc; destruct success; simpl; [|unfold ret; eauto].
  destruct (get_tunable_returns tunable_id (Some (name tunable)) w1)
    as ([exists_ check_message] & w2 & Hg).
  rewrite Hg.
  destruct (delete_tunable_returns srv tunable_id w2) as (deleted & delete_message & w3 & Hd).
  rewrite Hd; destruct deleted; unfold ret; eauto.
Qed.

Lemma test_all_returns tunables :
  forall acc w,
  exists acc' w',
    for_fold tunables (Validate.test_tunable srv) acc w = (Return acc', w').
Proof.
  induction tunables as [|t ts IH]; intros acc w; simpl.
  - unfold ret; eauto.
  - unfold bind.
    destruct (test_tunable_returns t acc w) as (acc1 & w1 & H1); rewrite H1.
    apply IH.
Qed.

Lemma cleanup_existing_returns w :
  exists w', Validate.cleanup_existing_test_tunables srv w = (Return tt, w').
Proof.
  unfold Validate.cleanup_existing_test_tunables.
  destruct (try_returns
              (response <- send GET_tunable (get_tunables srv) ;;
               if status_code response =? 200 then
                 tunables <- decode response ;;
                 let test_tunables := filter Validate.has_test_comment tunables in
                 if is_empty test_tunables then ret tt
                 else
                   for_each test_tunables
                     (fun t => id <- subscript "id" (rt_id t) ;;
                               delete_tunable srv (Some id) ;;; ret tt)
               else ret tt)
              (fun _ => ret tt) w) as ([] & w' & H).
  - intros e w1; unfold ret; eauto.
  - eauto.
Qed.

(** X11.  A creation that failed is recorded as invalid, with its message,
    and the loop body sends nothing more for that tunable: no verification,
    no delete. *)
Lemma failed_creation_is_invalid tunable acc w tunable_id message w1 :
  create_tunable srv tunable w = (Return (false, tunable_id, message), w1) ->
  Validate.test_tunable srv tunable acc w
  = (Return {| Validate.valid_tunables := Validate.valid_tunables acc;
               Validate.invalid_tunables :=
                 Validate.invalid_tunables acc
                 ++ [(tunable, "Create failed: " ++ message)] |}, w1).
Proof.
  intros H; unfold Validate.test_tunable, bind; rewrite H; reflexivity.
Qed.

(** Neither accumulator ever loses an entry. *)
Lemma test_tunable_grows tunable acc w acc' w' :
  Validate.test_tunable srv tunable acc w = (Return acc', w') ->
  (exists vs, Validate.valid_tunables acc' = (Validate.valid_tunables acc ++ vs)%list) /\
  (exists ivs, Validate.invalid_tunables acc' = (Validate.invalid_tunables acc ++ ivs)%list).
Proof.
  unfold Validate.test_tunable, bind.
  destruct (create_tunable srv tunable w) as [[[[success tunable_id] message]|e] w1];
    [|discriminate].
  destruct success; simpl.
  - destruct (get_tunable srv tunable_id (Some (name tunable)) w1)
      as [[[exists_ check_message]|e] w2]; [|discriminate].
    destruct (delete_tunable srv tunable_id w2) as [[[deleted delete_message]|e] w3];
      [|discriminate].
    destruct deleted; unfold ret; intros H; inv H; simpl;
      (split; [eauto | exists []; now rewrite app_nil_r]).
  - unfold ret; intros H; inv H; simpl.
    split; [exists []; now rewrite app_nil_r | eauto].
Qed.

Lemma test_all_grows tunables :
  forall acc w acc' w',
    for_fold tunables (Validate.test_tunable srv) acc w = (Return acc', w') ->
    (exists vs, Validate.valid_tunables acc' = (Validate.valid_tunables acc ++ vs)%list) /\
    (exists ivs, Validate.invalid_tunables acc' = (Validate.invalid_tunables acc ++ ivs)%list).
Proof.
  induction tunables as [|t ts IH]; intros acc w acc' w' H; simpl in H.
  - unfold ret in H; inv H; split; exists []; now rewrite app_nil_r.
  - unfold bind in H.
    destruct (Validate.test_tunable srv t acc w) as [[acc1|e] w1] eqn:H1; [|discriminate].
    destruct (test_tunable_grows _ _ _ _ _ H1) as [[vs Hv] [ivs Hi]].
    destruct (IH _ _ _ _ H) as [[vs' Hv'] [ivs' Hi']].
    split; [exists (vs ++ vs')%list | exists (ivs ++ ivs')%list];
      rewrite ?Hv', ?Hi', ?Hv, ?Hi, <- app_assoc; reflexivity.
Qed.

End WorkflowFacts.

(** C4.  Once [create_tunable] reports success, the loop body of the
    workflow appends the tunable to the valid accumulator and leaves the
    invalid accumulator as it was, whatever the verification and the
    delete-or-disable that follow answer. *)
Theorem created_is_valid
        (srv : Server) (tunable : Tunable) (acc : Validate.Accumulators)
        (w w1 : World) (tunable_id : PyId) (message : string) :
  create_tunable srv tunable w = (Return (true, tunable_id, message), w1) ->
  exists check deleted w2 w3,
    get_tunable srv tunable_id (Some (name tunable)) w1 = (Return check, w2) /\
    delete_tunable srv tunable_id w2 = (Return deleted, w3) /\
    Validate.test_tunable srv tunable acc w
    = (Return {| Validate.valid_tunables := Validate.valid_tunables acc ++ [tunable];
                 Validate.invalid_tunables := Validate.invalid_tunables acc |}, w3).
Proof.
  intros Hc.
  destruct (get_tunable_returns srv tunable_id (Some (name tunable)) w1)
    as ([exists_ check_message] & w2 & Hg).
  destruct (delete_tunable_returns srv tunable_id w2) as (deleted & delete_message & w3 & Hd).
  exists (exists_, check_message), (deleted, delete_message), w2, w3.
  repeat split; trivial.
  unfold Validate.test_tunable, bind; rewrite Hc; simpl; rewrite Hg, Hd.
  destruct deleted; reflexivity.
Qed.

Lemma created_is_valid_witness :
  exists check deleted w2 w3,
    get_tunable gone_server (Some 1) (Some "vm.swappiness")
      {| now := 60;
         trace := [Sent (POST_tunable
                           (create_data (Validate.tunable "vm.swappiness" "SYSCTL" "1" "")));
                   Sent GET_jobs; Sent GET_tunable] |}
    = (Return check, w2) /\
    delete_tunable gone_server (Some 1) w2 = (Return deleted, w3) /\
    Validate.test_tunable gone_server
      (Validate.tunable "vm.swappiness" "SYSCTL" "1" "")
      {| Validate.valid_tunables := []; Validate.invalid_tunables := [] |} world0
    = (Return {| Validate.valid_tunables :=
                   [Validate.tunable "vm.swappiness" "SYSCTL" "1" ""];
                 Validate.invalid_tunables := [] |}, w3).
Proof.
  apply (created_is_valid gone_server
           (Validate.tunable "vm.swappiness" "SYSCTL" "1" "")
           {| Validate.valid_tunables := []; Validate.invalid_tunables := [] |}
           world0 _ (Some 1) "Created successfully (creation ID: 1)").
  vm_compute; reflexivity.
Defined.

(** C8.  With an API key set, [main] runs to its end and exits with 0 if and
    only if the invalid accumulator is empty, and with 1 otherwise. *)
Theorem exit_code_reflects_invalid (srv : Server) (api_key : string) (w : World) :
  api_key <> "" ->
  exists code acc results w',
    Validate.main srv (Some api_key) w = (Return (code, Some (acc, results)), w') /\
    (code = 0 <-> Validate.invalid_tunables acc = []) /\
    (code = 1 <-> Validate.invalid_tunables acc <> []).
Proof.
  intros Hkey.
  unfold Validate.main.
  assert (Ht : truthy (Some api_key) = Some api_key)
    by (destruct api_key; [congruence | reflexivity]).
  rewrite Ht; unfold bind.
  destruct (cleanup_existing_returns srv w) as [w1 Hc]; rewrite Hc.
  destruct (test_all_returns srv Validate.get_performance_tunables
              {| Validate.valid_tunables := []; Validate.invalid_tunables := [] |} w1)
    as (acc & w2 & Hl).
  rewrite Hl.
  destruct (Validate.invalid_tunables acc) as [|entry entries] eqn:Hi; simpl; unfold ret.
  - exists 0, acc; do 2 eexists; split; [reflexivity|].
    rewrite Hi; split; split; congruence.
  - exists 1, acc; do 2 eexists; split; [reflexivity|].
    rewrite Hi; split; split; congruence.
Qed.

Lemma exit_code_reflects_invalid_witness :
  exists code acc results w',
    Validate.main quiet_server (Some "secret") world0
    = (Return (code, Some (acc, results)), w') /\
    (code = 0 <-> Validate.invalid_tunables acc = []) /\
    (code = 1 <-> Validate.invalid_tunables acc <> []).
Proof.
  apply (exit_code_reflects_invalid quiet_server "secret" world0).
  discriminate.
Defined.

(** ** Selective cleanup *)

Lemma prefix_spec k : forall s, prefix k s = true <-> exists b, s = k ++ b.
Proof.
  induction k as [|c k IH]; intros s.
  - destruct s; simpl; (split; [intros _; eexists; reflexivity | reflexivity]).
  - destruct s as [|c' s]; simpl.
    + split; [discriminate | intros (b & H); discriminate].
    + destruct (ascii_dec c c') as [->|Hne].
      * rewrite IH; split; intros (b & H); exists b; congruence.
      * split; [discriminate | intros (b & H); congruence].
Qed.

Lemma contains_unfold k s :
  contains k s =
  if prefix k s then true
  else match s with
       | EmptyString => false
       | String _ s' => contains k s'
       end.
Proof. destruct s; reflexivity. Qed.

(** [contains] decides whether the keyword occurs in the string. *)
Lemma contains_spec k s : contains k s = true <-> occurs_in k s.
Proof.
  unfold occurs_in; split.
  - induction s as [|c s IH]; rewrite contains_unfold.
    + destruct (prefix k "") eqn:E; [|discriminate].
      intros _; apply prefix_spec in E as [b E]; exists "", b; exact E.
    + destruct (prefix k (String c s)) eqn:E.
      * intros _; apply prefix_spec in E as [b E]; exists "", b; exact E.
      * intros H; destruct (IH H) as (a & b & ->).
        exists (String c a), b; reflexivity.
  - intros (a & b & ->).
    induction a as [|c a IH].
    + rewrite contains_unfold.
      replace (prefix k ("" ++ k ++ b)) with true; trivial.
      symmetry; apply prefix_spec; exists b; reflexivity.
    + change (String c a ++ k ++ b) with (String c (a ++ k ++ b)).
      rewrite contains_unfold, IH.
      now destruct (prefix k (String c (a ++ k ++ b))).
Qed.

Lemma mem_string_In x names : mem_string x names = true <-> In x names.
Proof.
  unfold mem_string; rewrite existsb_exists; split.
  - intros (y & Hin & E); apply String.eqb_eq in E; congruence.
  - intros H; exists x; split; [trivial | apply String.eqb_refl].
Qed.

Lemma is_test_spec comment :
  Cleanup.is_test comment = true <->
  exists keyword, In keyword Cleanup.test_keywords /\ occurs_in keyword comment.
Proof.
  unfold Cleanup.is_test; rewrite existsb_exists.
  split; intros (k & Hin & H); exists k; split; trivial; now apply contains_spec.
Qed.

(** C9.  On the example list the selective cleanup selects the tunables
    with ids 1 and 2, in that order; and in general a listed tunable is
    selected if and only if its lowercased comment contains one of the
    keywords or its name is one of the known performance tunables. *)
Theorem selective_cleanup_filter :
  map rt_id (Cleanup.select_test_tunables cleanup_example) = [Some 1; Some 2]
  /\
  forall tunables t,
    In t (Cleanup.select_test_tunables tunables) <->
    In t tunables /\
    ((exists keyword,
         In keyword Cleanup.test_keywords /\
         occurs_in keyword (lower (get_or_empty (rt_comment t))))
     \/ In (get_or_empty (rt_var t)) Cleanup.performance_tunable_names).
Proof.
  split; [vm_compute; reflexivity|].
  intros tunables t.
  unfold Cleanup.select_test_tunables, Cleanup.is_candidate, Cleanup.is_performance.
  rewrite filter_In, orb_true_iff, is_test_spec, mem_string_In.
  reflexivity.
Qed.

(** * Beyond the claims *)

(** ** Job monitor: footprint and bounds *)

Lemma polls_polled srv w : polls (polled srv w) = S (polls w).
Proof.
  unfold polls, polled, after; simpl; rewrite filter_app, length_app; simpl; lia.
Qed.

Lemma polls_slept ms w : polls (slept ms w) = polls w.
Proof.
  unfold polls, slept; simpl; rewrite filter_app, length_app; simpl; lia.
Qed.

Lemma now_polled srv w : now w <= now (polled srv w).
Proof. unfold polled; rewrite now_after; lia. Qed.

(** One poll: the three worlds it can end in. *)
Lemma poll_once_world srv w :
  snd (poll_once srv w) = polled srv w \/
  snd (poll_once srv w) = slept 500 (polled srv w) \/
  snd (poll_once srv w) = slept 2000 (polled srv w).
Proof.
  destruct (poll_kinds srv w) as [K|[K|K]].
  - rewrite (poll_once_idle srv w K); auto.
  - rewrite (poll_once_busy srv w K); auto.
  - rewrite (poll_once_failed srv w K); auto.
Qed.

Lemma adds_polled srv w : adds monitor_event w (polled srv w).
Proof. apply adds_after; now left. Qed.

Section MonitorBounds.

Variable srv : Server.
Variables start_time timeout_seconds : Z.

Lemma monitor_loop_footprint fuel :
  forall w r,
    monitor_loop srv fuel start_time timeout_seconds w = Some r ->
    adds monitor_event w (snd r) /\
    now w <= now (snd r) /\
    exists k,
      polls (snd r) = (polls w + k)%nat /\
      500 * Z.of_nat k <= Z.max 0 (1000 * timeout_seconds - (now w - start_time) + 499).
Proof.
  induction fuel as [|fuel IH]; intros w r H; [discriminate|].
  destruct (Z_lt_dec (now w - start_time) (1000 * timeout_seconds)) as [Hin|Hout];
    fold (in_time start_time timeout_seconds w) in *.
  - pose proof (now_polled srv w) as Hnow.
    pose proof (polls_polled srv w) as Hpolls.
    pose proof (adds_polled srv w) as Hadds.
    unfold in_time in Hin.
    destruct (poll_kinds srv w) as [K|[K|K]].
    + rewrite monitor_loop_idle in H by trivial; inv H; cbn [snd].
      repeat split; trivial.
      exists 1%nat; split; lia.
    + rewrite monitor_loop_busy in H by trivial.
      destruct (IH _ _ H) as (Ha & Hn & k & Hk & Hb).
      rewrite polls_slept, now_slept in *.
      split; [|split].
      * eapply adds_trans; [exact Hadds|].
        eapply adds_trans; [|exact Ha].
        apply adds_slept; right; now left.
      * lia.
      * exists (S k); split; lia.
    + rewrite monitor_loop_failed in H by trivial; inv H; cbn [snd].
      rewrite polls_slept, now_slept.
      split; [|split].
      * eapply adds_trans; [exact Hadds|].
        apply adds_slept; right; now right.
      * lia.
      * exists 1%nat; split; lia.
  - rewrite monitor_loop_late in H by trivial; inv H; cbn [snd].
    split; [apply adds_refl|].
    split; [lia|].
    exists 0%nat; split; lia.
Qed.

End MonitorBounds.

(** X1.  [monitor_jobs] never raises; all it does is poll the job endpoint
    and sleep, half a second between polls and two seconds after a failed
    poll; the clock never goes back; and it sends at most
    [2 * timeout_seconds] polls. *)
Theorem monitor_jobs_footprint (srv : Server) (timeout_seconds : Z) (w : World) :
  exists b w',
    monitor_jobs srv timeout_seconds w = (Return b, w') /\
    adds monitor_event w w' /\
    now w <= now w' /\
    (polls w' <= polls w + Z.to_nat (2 * timeout_seconds))%nat.
Proof.
  destruct (monitor_jobs_fuel srv timeout_seconds w) as [[o w'] Hr].
  destruct (monitor_loop_returns _ _ _ _ _ _ _ Hr) as [b ->].
  exists b, w'; split; [eapply monitor_jobs_eq; eauto|].
  destruct (monitor_loop_footprint _ _ _ _ _ _ Hr) as (Ha & Hn & k & Hk & Hb).
  cbn [snd] in *; repeat split; trivial.
  lia.
Qed.

(** X2.  With a timeout that is zero or negative the monitor returns [False]
    at once: no poll, no sleep. *)
Theorem monitor_jobs_no_time (srv : Server) (timeout_seconds : Z) (w : World) :
  timeout_seconds <= 0 ->
  monitor_jobs srv timeout_seconds w = (Return false, w).
Proof.
  intros H.
  apply (monitor_jobs_eq srv timeout_seconds w 1).
  apply monitor_loop_late; unfold in_time; lia.
Qed.

Lemma monitor_jobs_no_time_witness :
  monitor_jobs busy_server 0 world0 = (Return false, world0).
Proof. apply (monitor_jobs_no_time busy_server 0 world0); lia. Defined.

(** ** Verification by listing *)

Lemma get_eqb_eq v s : get_eqb v s = true <-> v = Some s.
Proof.
  destruct v as [x|]; simpl; [rewrite String.eqb_eq|]; split; congruence.
Qed.

Lemma find_by_id_some tunable_id tunables t :
  find_by_id tunable_id tunables = Some t -> present tunable_id tunables.
Proof.
  intros H; apply find_some in H as [Hin E].
  exists t; split; trivial; now apply id_eqb_eq.
Qed.

Lemma find_by_id_none tunable_id tunables :
  find_by_id tunable_id tunables = None -> ~ present tunable_id tunables.
Proof.
  intros H (t & Hin & E).
  pose proof (find_none _ _ H t Hin) as F; simpl in F.
  apply id_eqb_eq in E; congruence.
Qed.

Lemma find_by_var_some var tunables t :
  find_by_var var tunables = Some t -> named var tunables.
Proof.
  intros H; apply find_some in H as [Hin E].
  exists t; split; trivial; now apply get_eqb_eq.
Qed.

Lemma find_by_var_none var tunables :
  find_by_var var tunables = None -> ~ named var tunables.
Proof.
  intros H (t & Hin & E).
  pose proof (find_none _ _ H t Hin) as F; simpl in F.
  apply get_eqb_eq in E; congruence.
Qed.

(** X3.  [get_tunable] never raises and sends one request, the list request.
    It answers [True] exactly when that request is answered 200 with a list
    that decodes and holds an entry with the id, or, the name being given and
    not empty, an entry with that name. *)
Theorem get_tunable_verdict
        (srv : Server) (tunable_id : PyId) (tunable_name : option string) (w : World) :
  exists found msg,
    get_tunable srv tunable_id tunable_name w
    = (Return (found, msg), after GET_tunable (fst (get_tunables srv w)) w) /\
    (found = true <->
     exists r tunables,
       snd (get_tunables srv w) = Answered r /\
       status_code r = 200 /\ json r = inr tunables /\
       (present tunable_id tunables \/
        exists n, truthy tunable_name = Some n /\ named n tunables)).
Proof.
  unfold get_tunable; unmonad.
  destruct (get_tunables srv w) as [lat [e|r]]; simpl.
  - do 2 eexists; split; [reflexivity|].
    split; [discriminate | intros (r & ts & H & _); discriminate].
  - destruct (Z.eqb_spec (status_code r) 200) as [Hs|Hs].
    + destruct (json r) as [e|ts] eqn:Hj.
      * do 2 eexists; split; [reflexivity|].
        split; [discriminate | intros (r' & ts & H & _ & H' & _); congruence].
      * destruct (find_by_id tunable_id ts) as [t|] eqn:Hf.
        -- do 2 eexists; split; [reflexivity|].
           split; [intros _ | reflexivity].
           exists r, ts; repeat split; trivial.
           left; eapply find_by_id_some; eauto.
        -- apply find_by_id_none in Hf.
           destruct (truthy tunable_name) as [n|] eqn:Hn.
           ++ destruct (find_by_var n ts) as [t|] eqn:Hv; simpl.
              ** do 2 eexists; split; [reflexivity|].
                 split; [intros _ | reflexivity].
                 exists r, ts; repeat split; trivial.
                 right; exists n; split; trivial; eapply find_by_var_some; eauto.
              ** apply find_by_var_none in Hv.
                 do 2 eexists; split; [reflexivity|].
                 split; [discriminate|].
                 intros (r' & ts' & H & _ & H' & [Hp|(n' & Hn' & Hp)]);
                   inv H; rewrite Hj in H'; inv H'; [contradiction | congruence].
           ++ do 2 eexists; split; [reflexivity|].
              split; [discriminate|].
              intros (r' & ts' & H & _ & H' & [Hp|(n' & Hn' & Hp)]);
                inv H; rewrite Hj in H'; inv H'; [contradiction | discriminate].
    + do 2 eexists; split; [reflexivity|].
      split; [discriminate | intros (r' & ts & H & Hs' & _); congruence].
Qed.

(** ** Creation: the failure paths and the single POST *)

(** X4.  The text [create_tunable] reports for a refused creation: the
    detail of the error body when the response has a text and its body is an
    object with a detail, and the text of the response in every other case.
    The "Unknown error" default is never used. *)
Theorem error_text_sources (response : Response PostJson) :
  (forall id detail,
      text response <> "" ->
      json response = inr (PJDict id (Some detail)) ->
      error_text response = detail)
  /\
  ((text response = "" \/
    forall id detail, json response <> inr (PJDict id (Some detail))) ->
   error_text response = text response).
Proof.
  unfold error_text.
  destruct (String.eqb_spec (text response) "") as [E|E].
  - split; [intros id detail H; contradiction | trivial].
  - split.
    + intros id detail _ ->; reflexivity.
    + intros [H|H]; [contradiction|].
      destruct (json response) as [e|[id [detail|]|[n|]]]; trivial.
      * exfalso; exact (H id detail eq_refl).
      * destruct (n =? 0); reflexivity.
Qed.

Lemma error_text_sources_witness :
  error_text {| status_code := 422; text := "unprocessable";
                json := inr (PJDict None (Some "Invalid tunable")) |}
  = "Invalid tunable".
Proof.
  apply (proj1 (error_text_sources
                  {| status_code := 422; text := "unprocessable";
                     json := inr (PJDict None (Some "Invalid tunable")) |}) None).
  - discriminate.
  - reflexivity.
Defined.

(** X5.  A creation request that is answered with a status other than 200,
    or that raises, makes [create_tunable] report failure with no id, and
    nothing is sent after the POST: no job poll, no list request. *)
Theorem create_tunable_refused (srv : Server) (tunable : Tunable) (w : World) :
  (forall r,
      snd (post_tunable srv w (create_data tunable)) = Answered r ->
      status_code r <> 200 ->
      create_tunable srv tunable w
      = (Return (false, None,
                 "HTTP " ++ str_int (status_code r) ++ ": " ++ error_text r),
         after (POST_tunable (create_data tunable))
               (fst (post_tunable srv w (create_data tunable))) w))
  /\
  (forall e,
      snd (post_tunable srv w (create_data tunable)) = Failed e ->
      create_tunable srv tunable w
      = (Return (false, None,
                 match e with
                 | RequestException m => "Request error: " ++ m
                 | OtherException m => "Unexpected error: " ++ m
                 end),
         after (POST_tunable (create_data tunable))
               (fst (post_tunable srv w (create_data tunable))) w)).
Proof.
  split.
  - intros r Hr Hs.
    unfold create_tunable; unmonad.
    destruct (post_tunable srv w (create_data tunable)) as [lat rp]; simpl in *; subst rp.
    apply Z.eqb_neq in Hs; rewrite Hs; reflexivity.
  - intros e He.
    unfold create_tunable; unmonad.
    destruct (post_tunable srv w (create_data tunable)) as [lat rp]; simpl in *; subst rp.
    destruct e; reflexivity.
Qed.

Lemma create_tunable_refused_witness :
  create_tunable broken_server (Validate.tunable "vm.swappiness" "SYSCTL" "1" "") world0
  = (Return (false, None, "HTTP 500: Internal Server Error"),
     {| now := 20;
        trace := [Sent (POST_tunable
                          (create_data (Validate.tunable "vm.swappiness" "SYSCTL" "1" "")))] |})
  /\
  create_tunable unreachable_server (Validate.tunable "vm.swappiness" "SYSCTL" "1" "") world0
  = (Return (false, None, "Request error: connection refused"),
     {| now := 20;
        trace := [Sent (POST_tunable
                          (create_data (Validate.tunable "vm.swappiness" "SYSCTL" "1" "")))] |}).
Proof.
  split.
  - refine (proj1 (create_tunable_refused broken_server
                     (Validate.tunable "vm.swappiness" "SYSCTL" "1" "") world0)
                  {| status_code := 500; text := "Internal Server Error";
                     json := inl (RequestException "Expecting value") |} _ _).
    + reflexivity.
    + discriminate.
  - refine (proj2 (create_tunable_refused unreachable_server
                     (Validate.tunable "vm.swappiness" "SYSCTL" "1" "") world0)
                  (RequestException "connection refused") _).
    reflexivity.
Defined.

Lemma create_tunable_resolves_witness :
  create_tunable renumbering_server
    (Validate.tunable "vm.swappiness" "SYSCTL" "1" "") world0
  = (Return (true, Some 42, "Created successfully (actual ID: 42)"),
     {| now := 60;
        trace := [Sent (POST_tunable
                          (create_data (Validate.tunable "vm.swappiness" "SYSCTL" "1" "")));
                  Sent GET_jobs; Sent GET_tunable] |}).
Proof.
  refine (create_tunable_resolves renumbering_server
            (Validate.tunable "vm.swappiness" "SYSCTL" "1" "") world0 (Some 1)
            {| now := 40;
               trace := [Sent (POST_tunable
                                 (create_data
                                    (Validate.tunable "vm.swappiness" "SYSCTL" "1" "")));
                         Sent GET_jobs] |}
            {| status_code := 200; text := "";
               json := inr [remote 42 "vm.swappiness" ""] |} _ _ _).
  - eexists; eexists; repeat split; reflexivity.
  - reflexivity.
  - intros _; eexists; reflexivity.
Defined.

Lemma waits_read_only : waits read_only.
Proof. split; [exact I | intros ms; exact I]. Qed.

Lemma read_only_disable_event tunable_id e : read_only e -> disable_event tunable_id e.
Proof. destruct e as [[| |data|id enabled|id]|ms]; simpl; tauto. Qed.

Lemma create_tunable_after_post srv (P : Event -> Prop) tunable w :
  waits P -> P (Sent GET_tunable) ->
  exists rest,
    trace (snd (create_tunable srv tunable w))
    = (trace w ++ Sent (POST_tunable (create_data tunable)) :: rest)%list /\
    Forall P rest.
Proof.
  intros HP Hg.
  unfold create_tunable, try, bind at 1, send at 1.
  destruct (post_tunable srv w (create_data tunable)) as [lat [e|r]].
  - destruct e; exists []; (split; [reflexivity | constructor]).
  - set (w1 := after (POST_tunable (create_data tunable)) lat w).
    match goal with
    | |- context [match ?k w1 with _ => _ end] =>
        assert (Hk : adds P w1 (snd (k w1)));
          [|destruct (k w1) as [[a|e] w2]]
    end.
    + destruct (status_code r =? 200); [|apply adds_refl].
      revert w1; apply emits_bind; [apply emits_decode|]; intros body.
      apply emits_bind; [now apply monitor_jobs_emits|]; intros _.
      apply emits_bind; [now apply emits_send|]; intros r'.
      apply emits_bind.
      * destruct (status_code r' =? 200); [|apply emits_ret].
        apply emits_bind; [apply emits_decode | intros; apply emits_ret].
      * intros [t|]; apply emits_ret.
    + destruct Hk as (es & E & F); exists es; simpl in *.
      rewrite E; unfold w1; simpl; now rewrite <- app_assoc.
    + destruct Hk as (es & E & F); exists es; simpl in *.
      destruct e; simpl; rewrite E; unfold w1; simpl; now rewrite <- app_assoc.
Qed.

(** X7.  [create_tunable] never raises and changes the appliance through one
    request only: the POST it starts with.  Whatever it sends afterwards is a
    job poll or a list request. *)
Theorem create_tunable_single_post (srv : Server) (tunable : Tunable) (w : World) :
  exists result w' rest,
    create_tunable srv tunable w = (Return result, w') /\
    trace w' = (trace w ++ Sent (POST_tunable (create_data tunable)) :: rest)%list /\
    Forall read_only rest.
Proof.
  destruct (create_tunable_returns srv tunable w) as (result & w' & H).
  destruct (create_tunable_after_post srv read_only tunable w waits_read_only I)
    as (rest & E & F).
  rewrite H in E; exists result, w', rest; auto.
Qed.

(** ** Two-phase delete: footprint and exceptions *)

Lemma hard_delete_after_delete srv (P : Event -> Prop) tunable_id w :
  waits P -> P (Sent GET_tunable) ->
  exists rest,
    trace (snd (hard_delete srv tunable_id w))
    = (trace w ++ Sent (DELETE_tunable tunable_id) :: rest)%list /\
    Forall P rest.
Proof.
  intros HP Hg.
  unfold hard_delete, bind at 1, send at 1.
  destruct (del_tunable srv w tunable_id) as [lat [e|r]].
  - exists []; split; [reflexivity | constructor].
  - set (w1 := after (DELETE_tunable tunable_id) lat w).
    match goal with
    | |- context [snd (?k w1)] => assert (Hk : adds P w1 (snd (k w1)))
    end.
    + destruct (deleted_status (status_code r)); [|apply adds_refl].
      revert w1; apply emits_bind; [now apply monitor_jobs_emits|]; intros _.
      apply emits_bind; [now apply emits_send|]; intros r'.
      destruct (status_code r' =? 200); [|apply emits_ret].
      apply emits_bind; [apply emits_decode | intros; apply emits_ret].
    + destruct Hk as (es & E & F); exists es; split; trivial.
      rewrite E; unfold w1; simpl; now rewrite <- app_assoc.
Qed.

Lemma soft_disable_after_put srv (P : Event -> Prop) tunable_id w :
  waits P ->
  exists rest,
    trace (snd (soft_disable srv tunable_id w))
    = (trace w ++ Sent (PUT_tunable tunable_id false) :: rest)%list /\
    Forall P rest.
Proof.
  intros HP.
  unfold soft_disable; unmonad.
  destruct (put_tunable srv w tunable_id false) as [lat [e|r]]; simpl.
  - exists []; split; [reflexivity | constructor].
  - destruct (status_code r =? 200); simpl;
      [|exists []; split; [reflexivity | constructor]].
    destruct (monitor_jobs_emits srv P HP 10
                (after (PUT_tunable tunable_id false) lat w)) as (es & E & F).
    destruct (monitor_jobs srv 10 (after (PUT_tunable tunable_id false) lat w)) as [[b|e] wm];
      simpl in *; exists es; rewrite E, <- app_assoc; split; trivial.
Qed.

(** The trace of the two phases run one after the other, as both delete
    functions do when the first phase did not return [True]. *)
Lemma two_phases_trace srv tunable_id w :
  exists rest,
    trace (snd (soft_disable srv tunable_id (snd (hard_delete srv tunable_id w))))
    = (trace w ++ Sent (DELETE_tunable tunable_id) :: rest)%list /\
    Forall (disable_event tunable_id) rest.
Proof.
  destruct (hard_delete_after_delete srv read_only tunable_id w waits_read_only I)
    as (rest1 & E1 & F1).
  destruct (soft_disable_after_put srv read_only tunable_id
              (snd (hard_delete srv tunable_id w)) waits_read_only) as (rest2 & E2 & F2).
  exists (rest1 ++ Sent (PUT_tunable tunable_id false) :: rest2)%list; split.
  - rewrite E2, E1, <- app_assoc; reflexivity.
  - apply Forall_app; split.
    + eapply Forall_impl; [apply read_only_disable_event | exact F1].
    + constructor; [simpl; auto|].
      eapply Forall_impl; [apply read_only_disable_event | exact F2].
Qed.

Lemma hard_delete_trace_disable srv tunable_id w :
  exists rest,
    trace (snd (hard_delete srv tunable_id w))
    = (trace w ++ Sent (DELETE_tunable tunable_id) :: rest)%list /\
    Forall (disable_event tunable_id) rest.
Proof.
  destruct (hard_delete_after_delete srv read_only tunable_id w waits_read_only I)
    as (rest1 & E1 & F1).
  exists rest1; split; trivial.
  eapply Forall_impl; [apply read_only_disable_event | exact F1].
Qed.

(** X8.  Both delete functions start with the DELETE of the given id and
    send it once.  Whatever follows is a read, a sleep, or the PUT that
    disables that same id, sent at most once: no other record is touched,
    nothing is created, nothing is enabled.  [delete_tunable] never raises. *)
Theorem delete_footprint (srv : Server) (tunable_id : PyId) (w : World) :
  (exists ok msg w' rest,
      delete_tunable srv tunable_id w = (Return (ok, msg), w') /\
      trace w' = (trace w ++ Sent (DELETE_tunable tunable_id) :: rest)%list /\
      Forall (disable_event tunable_id) rest /\
      (puts w' <= S (puts w))%nat)
  /\
  (exists o w' rest,
      Cleanup.delete_tunable_rest srv tunable_id w = (o, w') /\
      trace w' = (trace w ++ Sent (DELETE_tunable tunable_id) :: rest)%list /\
      Forall (disable_event tunable_id) rest /\
      (puts w' <= S (puts w))%nat).
Proof.
  pose proof (hard_delete_puts srv tunable_id w) as Hp1.
  pose proof (soft_disable_puts srv tunable_id (snd (hard_delete srv tunable_id w))) as Hp2.
  destruct (hard_delete_trace_disable srv tunable_id w) as (rest1 & E1 & F1).
  destruct (two_phases_trace srv tunable_id w) as (rest2 & E2 & F2).
  split.
  - rewrite delete_tunable_phases.
    destruct (hard_delete srv tunable_id w) as [[[|]|e] w1]; cbn [snd] in *.
    + do 3 eexists; exists rest1; repeat split; trivial; lia.
    + destruct (soft_disable srv tunable_id w1) as [[status|e] w2]; cbn [snd] in *.
      * destruct (status =? 200); do 3 eexists; exists rest2; repeat split; trivial; lia.
      * do 3 eexists; exists rest2; repeat split; trivial; lia.
    + do 3 eexists; exists rest1; repeat split; trivial; lia.
  - rewrite delete_tunable_rest_phases; cbv zeta.
    destruct (hard_delete srv tunable_id w) as [[[|]|e] w1]; cbn [snd] in *.
    + do 2 eexists; exists rest1; repeat split; trivial; lia.
    + destruct (soft_disable srv tunable_id w1) as [[status|e] w2]; cbn [snd] in *.
      * destruct (status =? 200); do 2 eexists; exists rest2; repeat split; trivial; lia.
      * do 2 eexists; exists rest2; repeat split; trivial; lia.
    + destruct (soft_disable srv tunable_id w1) as [[status|e'] w2]; cbn [snd] in *.
      * destruct (status =? 200); do 2 eexists; exists rest2; repeat split; trivial; lia.
      * do 2 eexists; exists rest2; repeat split; trivial; lia.
Qed.

(** X9.  [delete_tunable_rest] returns [True] or raises its own "using all
    methods" exception: it never returns [False] and lets no exception of a
    request through. *)
Theorem delete_tunable_rest_verdict (srv : Server) (tunable_id : PyId) (w : World) :
  fst (Cleanup.delete_tunable_rest srv tunable_id w) = Return true \/
  fst (Cleanup.delete_tunable_rest srv tunable_id w)
  = Raise (OtherException ("Failed to delete tunable " ++ str_id tunable_id
                           ++ " using all methods")).
Proof.
  rewrite delete_tunable_rest_phases; cbv zeta.
  destruct (hard_delete srv tunable_id w) as [[[|]|e] w1]; auto;
    destruct (soft_disable srv tunable_id w1) as [[status|e'] w2]; auto;
    destruct (status =? 200); auto.
Qed.

(** X10.  When the hard-delete phase raises (the DELETE request raises, or
    the list request after it raises or does not decode), the two scripts
    part: [TrueNASAPI.delete_tunable] reports failure "Delete error: ..."
    there and then, with no PUT sent, while [delete_tunable_rest] goes on to
    the disabling PUT and succeeds exactly when that PUT answers 200. *)
Theorem delete_phase_raises
        (srv : Server) (tunable_id : PyId) (w w1 : World) (e : Exn) :
  hard_delete srv tunable_id w = (Raise e, w1) ->
  delete_tunable srv tunable_id w = (Return (false, "Delete error: " ++ str_exn e), w1) /\
  puts w1 = puts w /\
  exists o w',
    Cleanup.delete_tunable_rest srv tunable_id w = (o, w') /\
    puts w' = S (puts w) /\
    (o = Return true <-> disable_succeeds srv tunable_id w1).
Proof.
  intros H.
  pose proof (hard_delete_puts srv tunable_id w) as Hp1.
  pose proof (soft_disable_puts srv tunable_id w1) as Hp2.
  pose proof (soft_disable_succeeds srv tunable_id w1) as Hd.
  rewrite delete_tunable_phases, delete_tunable_rest_phases, H in *; cbv zeta.
  cbn [snd] in Hp1.
  split; [reflexivity|]; split; [exact Hp1|].
  destruct (soft_disable srv tunable_id w1) as [[status|e'] w2]; cbn [fst snd] in *.
  - destruct (Z.eqb_spec status 200) as [->|Hne]; do 2 eexists;
      (split; [reflexivity|]); (split; [lia|]).
    + split; [intros _; now apply Hd | trivial].
    + split; [discriminate | intros D; apply Hd in D; congruence].
  - do 2 eexists; split; [reflexivity|]; split; [lia|].
    split; [discriminate | intros D; apply Hd in D; congruence].
Qed.

Lemma delete_phase_raises_witness :
  delete_tunable unreachable_server (Some 7) world0
  = (Return (false, "Delete error: connection refused"),
     {| now := 20; trace := [Sent (DELETE_tunable (Some 7))] |}) /\
  puts {| now := 20; trace := [Sent (DELETE_tunable (Some 7))] |} = puts world0 /\
  exists o w',
    Cleanup.delete_tunable_rest unreachable_server (Some 7) world0 = (o, w') /\
    puts w' = S (puts world0) /\
    (o = Return true <->
     disable_succeeds unreachable_server (Some 7)
       {| now := 20; trace := [Sent (DELETE_tunable (Some 7))] |}).
Proof.
  apply (delete_phase_raises unreachable_server (Some 7) world0
           {| now := 20; trace := [Sent (DELETE_tunable (Some 7))] |}
           (RequestException "connection refused")).
  reflexivity.
Defined.

(** ** Validation workflow: accounting and footprint *)

Lemma failed_creation_is_invalid_witness :
  Validate.test_tunable broken_server
    (Validate.tunable "vm.swappiness" "SYSCTL" "1" "")
    {| Validate.valid_tunables := []; Validate.invalid_tunables := [] |} world0
  = (Return {| Validate.valid_tunables := [];
               Validate.invalid_tunables :=
                 [(Validate.tunable "vm.swappiness" "SYSCTL" "1" "",
                   "Create failed: HTTP 500: Internal Server Error")] |},
     {| now := 20;
        trace := [Sent (POST_tunable
                          (create_data (Validate.tunable "vm.swappiness" "SYSCTL" "1" "")))] |}).
Proof.
  apply (failed_creation_is_invalid broken_server
           (Validate.tunable "vm.swappiness" "SYSCTL" "1" "")
           {| Validate.valid_tunables := []; Validate.invalid_tunables := [] |}
           world0 None "HTTP 500: Internal Server Error").
  reflexivity.
Defined.

(** X12.  Without an API key (unset or empty) none of the three scripts
    sends a request: each ends at once, the validation with exit code 1. *)
Theorem no_api_key_no_request (srv : Server) (api_key : option string) (w : World) :
  truthy api_key = None ->
  Validate.main srv api_key w = (Return (1, None), w) /\
  (forall argv stdin, Cleanup.main srv api_key argv stdin w = (Return Cleanup.NoApiKey, w)) /\
  DeleteAll.delete_all_tunables srv api_key w = (Return DeleteAll.NoApiKey, w).
Proof.
  intros H.
  unfold Validate.main, Cleanup.main, DeleteAll.delete_all_tunables; rewrite H.
  repeat split.
Qed.

Lemma no_api_key_no_request_witness :
  Validate.main quiet_server (Some "") world0 = (Return (1, None), world0) /\
  (forall argv stdin,
      Cleanup.main quiet_server (Some "") argv stdin world0
      = (Return Cleanup.NoApiKey, world0)) /\
  DeleteAll.delete_all_tunables quiet_server (Some "") world0
  = (Return DeleteAll.NoApiKey, world0).
Proof. apply (no_api_key_no_request quiet_server (Some "") world0); reflexivity. Defined.

(** The tunables the loop body has classified, valid ones first. *)
Lemma test_tunable_classifies srv tunable acc w acc' w' :
  Validate.test_tunable srv tunable acc w = (Return acc', w') ->
  Permutation
    (Validate.valid_tunables acc' ++ map fst (Validate.invalid_tunables acc'))
    (tunable :: Validate.valid_tunables acc ++ map fst (Validate.invalid_tunables acc)).
Proof.
  unfold Validate.test_tunable, bind.
  destruct (create_tunable srv tunable w) as [[[[success tunable_id] message]|e] w1];
    [|discriminate].
  destruct success; simpl.
  - destruct (get_tunable srv tunable_id (Some (name tunable)) w1)
      as [[[exists_ check_message]|e] w2]; [|discriminate].
    destruct (delete_tunable srv tunable_id w2) as [[[deleted delete_message]|e] w3];
      [|discriminate].
    destruct deleted; unfold ret; intros H; inv H; simpl;
      rewrite <- app_assoc; simpl; symmetry; apply Permutation_middle.
  - unfold ret; intros H; inv H; simpl.
    rewrite map_app; simpl.
    rewrite app_assoc; symmetry.
    apply Permutation_cons_append.
Qed.

Lemma test_all_classifies srv tunables :
  forall acc w acc' w',
    for_fold tunables (Validate.test_tunable srv) acc w = (Return acc', w') ->
    Permutation
      (Validate.valid_tunables acc' ++ map fst (Validate.invalid_tunables acc'))
      (Validate.valid_tunables acc ++ map fst (Validate.invalid_tunables acc) ++ tunables).
Proof.
  induction tunables as [|t ts IH]; intros acc w acc' w' H; simpl in H.
  - unfold ret in H; inv H; now rewrite !app_nil_r.
  - unfold bind in H.
    destruct (Validate.test_tunable srv t acc w) as [[acc1|e] w1] eqn:H1; [|discriminate].
    apply test_tunable_classifies in H1.
    apply IH in H.
    etransitivity; [exact H|].
    rewrite app_assoc.
    etransitivity; [apply Permutation_app_tail; exact H1|].
    rewrite (app_assoc (Validate.valid_tunables acc)); simpl.
    apply Permutation_middle.
Qed.

(** X13.  A run of the validation with an API key classifies every tunable
    of the table exactly once: the valid tunables together with the invalid
    ones are a rearrangement of the table, so the counts written to the
    results add up to the 79 tested. *)
Theorem main_classifies_all (srv : Server) (api_key : string) (w : World) :
  api_key <> "" ->
  exists code acc results w',
    Validate.main srv (Some api_key) w = (Return (code, Some (acc, results)), w') /\
    Permutation
      (Validate.valid_tunables acc ++ map fst (Validate.invalid_tunables acc))
      Validate.get_performance_tunables /\
    Validate.total_tested results = 79 /\
    Validate.valid_count results + Validate.invalid_count results
    = Validate.total_tested results.
Proof.
  intros Hkey.
  unfold Validate.main.
  assert (Ht : truthy (Some api_key) = Some api_key)
    by (destruct api_key; [congruence | reflexivity]).
  rewrite Ht; unfold bind.
  destruct (cleanup_existing_returns srv w) as [w1 Hc]; rewrite Hc.
  destruct (test_all_returns srv Validate.get_performance_tunables
              {| Validate.valid_tunables := []; Validate.invalid_tunables := [] |} w1)
    as (acc & w2 & Hl).
  rewrite Hl.
  pose proof (test_all_classifies _ _ _ _ _ _ Hl) as Hperm; simpl in Hperm.
  assert (Hlen : Z.of_nat (List.length (Validate.valid_tunables acc))
                 + Z.of_nat (List.length (Validate.invalid_tunables acc)) = 79).
  { apply Permutation_length in Hperm.
    rewrite length_app, length_map in Hperm.
    change (List.length Validate.get_performance_tunables) with 79%nat in Hperm.
    lia. }
  destruct (is_empty (Validate.invalid_tunables acc)); simpl; unfold ret;
    do 4 eexists; (split; [reflexivity|]); repeat split; trivial.
Qed.

Lemma main_classifies_all_witness :
  exists code acc results w',
    Validate.main quiet_server (Some "secret") world0
    = (Return (code, Some (acc, results)), w') /\
    Permutation
      (Validate.valid_tunables acc ++ map fst (Validate.invalid_tunables acc))
      Validate.get_performance_tunables /\
    Validate.total_tested results = 79 /\
    Validate.valid_count results + Validate.invalid_count results
    = Validate.total_tested results.
Proof.
  apply (main_classifies_all quiet_server "secret" world0); discriminate.
Defined.

Section ClientEmits.

Variable srv : Server.
Variable P : Event -> Prop.
Hypothesis HP : waits P.
Hypothesis Hlist : P (Sent GET_tunable).

Lemma get_tunable_emits tunable_id tunable_name :
  emits P (get_tunable srv tunable_id tunable_name).
Proof.
  unfold get_tunable.
  apply emits_try; [|intros e; apply emits_ret].
  apply emits_bind; [now apply emits_send|]; intros r.
  destruct (status_code r =? 200); [|apply emits_ret].
  apply emits_bind; [apply emits_decode|]; intros ts.
  destruct (find_by_id tunable_id ts); [apply emits_ret|].
  destruct (truthy tunable_name) as [n|]; [|apply emits_ret].
  destruct (find_by_var n ts); simpl; apply emits_ret.
Qed.

Lemma soft_disable_emits tunable_id :
  P (Sent (PUT_tunable tunable_id false)) -> emits P (soft_disable srv tunable_id).
Proof.
  intros Hput; unfold soft_disable.
  apply emits_bind; [now apply emits_send|]; intros r.
  destruct (status_code r =? 200); [|apply emits_ret].
  apply emits_bind; [now apply monitor_jobs_emits | intros; apply emits_ret].
Qed.

Lemma delete_tunable_emits tunable_id :
  P (Sent (DELETE_tunable tunable_id)) -> P (Sent (PUT_tunable tunable_id false)) ->
  emits P (delete_tunable srv tunable_id).
Proof.
  intros Hdel Hput; unfold delete_tunable.
  apply emits_try; [|intros e; apply emits_ret].
  apply emits_bind; [now apply hard_delete_emits|]; intros [|]; [apply emits_ret|].
  apply emits_bind; [now apply soft_disable_emits|]; intros status.
  destruct (status =? 200); apply emits_ret.
Qed.

Lemma delete_tunable_rest_emits tunable_id :
  P (Sent (DELETE_tunable tunable_id)) -> P (Sent (PUT_tunable tunable_id false)) ->
  emits P (Cleanup.delete_tunable_rest srv tunable_id).
Proof.
  intros Hdel Hput; unfold Cleanup.delete_tunable_rest.
  apply emits_bind.
  - apply emits_try; [now apply hard_delete_emits | intros e; apply emits_ret].
  - intros [|]; [apply emits_ret|].
    apply emits_bind.
    + apply emits_try; [|intros e; apply emits_ret].
      apply emits_bind; [now apply soft_disable_emits | intros; apply emits_ret].
    + intros [|]; [apply emits_ret | apply emits_raise].
Qed.

End ClientEmits.

Lemma emits_for_fold_in P {A S} (xs : list A) (body : A -> S -> M S) :
  (forall x, In x xs -> forall s, emits P (body x s)) ->
  forall s, emits P (for_fold xs body s).
Proof.
  induction xs as [|x xs IH]; intros H s; simpl.
  - apply emits_ret.
  - apply emits_bind; [apply H; now left|].
    intros s'; apply IH; intros y Hy; apply H; now right.
Qed.

Lemma waits_validation_event : waits validation_event.
Proof. split; [exact I | intros ms; exact I]. Qed.

(** X14.  All a run of the validation workflow ever sends, besides job polls
    and list requests: creations of tunables of the table, enabled and with a
    comment of at most 255 characters; deletes; and PUTs that disable.  It
    never sends a PUT that enables. *)
Theorem validation_footprint (srv : Server) (api_key : option string) (w : World) :
  adds validation_event w (snd (Validate.main srv api_key w)).
Proof.
  revert w; change (emits validation_event (Validate.main srv api_key)).
  pose proof waits_validation_event as HP.
  unfold Validate.main.
  destruct (truthy api_key); [|apply emits_ret].
  apply emits_bind.
  - unfold Validate.cleanup_existing_test_tunables.
    apply emits_try; [|intros e; apply emits_ret].
    apply emits_bind; [apply emits_send; exact I|]; intros r.
    destruct (status_code r =? 200); [|apply emits_ret].
    apply emits_bind; [apply emits_decode|]; intros ts; cbv zeta.
    destruct (is_empty (filter Validate.has_test_comment ts)); [apply emits_ret|].
    apply emits_for_each; intros t.
    apply emits_bind; [apply emits_subscript|]; intros id.
    apply emits_bind; [|intros; apply emits_ret].
    apply delete_tunable_emits; simpl; auto.
  - intros _; cbv zeta.
    apply emits_bind.
    + apply emits_for_fold_in; intros t Hin acc.
      unfold Validate.test_tunable.
      apply emits_bind.
      * apply create_tunable_emits; simpl; auto.
        split; [exists t; auto|].
        split; [exact (slice_to_length 255 (description t)) | reflexivity].
      * intros [[success tunable_id] message].
        destruct success; simpl; [|apply emits_ret].
        apply emits_bind; [apply get_tunable_emits; simpl; auto|].
        intros [exists_ check_message].
        apply emits_bind; [apply delete_tunable_emits; simpl; auto|].
        intros [deleted delete_message]; destruct deleted; apply emits_ret.
    + intros acc.
      destruct (negb (is_empty (Validate.invalid_tunables acc))); apply emits_ret.
Qed.

(** X15.  The cleanup that opens the validation never raises, and when the
    list request fails or lists no tunable whose comment contains "test"
    (in any case), it sends nothing but that list request. *)
Theorem cleanup_existing_nothing_to_do (srv : Server) (w : World) :
  (forall r tunables t,
      snd (get_tunables srv w) = Answered r -> status_code r = 200 ->
      json r = inr tunables -> In t tunables ->
      ~ occurs_in "test" (lower (get_or_empty (rt_comment t)))) ->
  Validate.cleanup_existing_test_tunables srv w
  = (Return tt, after GET_tunable (fst (get_tunables srv w)) w).
Proof.
  intros H.
  unfold Validate.cleanup_existing_test_tunables; unmonad.
  destruct (get_tunables srv w) as [lat [e|r]]; simpl in *; trivial.
  destruct (Z.eqb_spec (status_code r) 200) as [Hs|Hs]; trivial.
  destruct (json r) as [e|ts] eqn:Hj; trivial.
  assert (Hall : forall t, In t ts -> Validate.has_test_comment t = false).
  { intros t Hin; destruct (Validate.has_test_comment t) eqn:E; trivial.
    exfalso; apply (H r ts t eq_refl Hs Hj Hin).
    apply contains_spec; exact E. }
  replace (filter Validate.has_test_comment ts) with (@nil RemoteTunable); trivial.
  clear H Hj; induction ts as [|t ts IH]; simpl; trivial.
  rewrite (Hall t) by now left.
  apply IH; intros t' Hin; apply Hall; now right.
Qed.

Lemma cleanup_existing_nothing_to_do_witness :
  Validate.cleanup_existing_test_tunables sticky_server world0
  = (Return tt, {| now := 20; trace := [Sent GET_tunable] |}).
Proof.
  apply (cleanup_existing_nothing_to_do sticky_server world0).
  intros r tunables t Hr _ Hj Hin; inv Hr; inv Hj.
  destruct Hin as [<-|[]].
  intros H; apply contains_spec in H; discriminate.
Defined.

(** X16.  Whatever the pre-cleanup of the validation would delete is also a
    candidate of the selective cleanup script: "test" is one of its
    keywords. *)
Theorem test_comment_is_candidate (t : RemoteTunable) :
  Validate.has_test_comment t = true -> Cleanup.is_candidate t = true.
Proof.
  unfold Validate.has_test_comment, Cleanup.is_candidate, Cleanup.is_test.
  intros H; cbn [existsb Cleanup.test_keywords]; rewrite H; reflexivity.
Qed.

Lemma test_comment_is_candidate_witness :
  Cleanup.is_candidate (remote 1 "custom" "Validation Test") = true.
Proof. apply (test_comment_is_candidate (remote 1 "custom" "Validation Test")); reflexivity. Defined.

(** ** Selective cleanup: the run *)

Section CleanupRun.

Variable srv : Server.

Lemma get_tunables_rest_listed w tunables :
  lists srv w tunables ->
  Cleanup.get_tunables_rest srv w = (Return tunables, listed_at srv w).
Proof.
  intros (r & Hr & Hs & Hj).
  unfold Cleanup.get_tunables_rest, listed_at; unmonad.
  destruct (get_tunables srv w) as [lat rp]; simpl in *; subst rp.
  rewrite Hs, Hj; reflexivity.
Qed.

Lemma get_tunables_rest_world w :
  snd (Cleanup.get_tunables_rest srv w) = listed_at srv w.
Proof.
  unfold Cleanup.get_tunables_rest, listed_at; unmonad.
  destruct (get_tunables srv w) as [lat [e|r]]; simpl; trivial.
  destruct (status_code r =? 200); simpl; trivial.
  destruct (json r); reflexivity.
Qed.

(** The loop that prints the candidates: it only reads their two keys. *)
Lemma print_loop_world (xs : list RemoteTunable) w :
  snd (for_each xs
         (fun t => subscript "id" (rt_id t) ;;; subscript "var" (rt_var t) ;;; ret tt) w)
  = w.
Proof.
  revert w; induction xs as [|t xs IH]; intros w; simpl; trivial.
  unmonad; destruct (rt_id t), (rt_var t); simpl; trivial; apply IH.
Qed.

Lemma print_loop_keys (xs : list RemoteTunable) w :
  Forall has_keys xs ->
  for_each xs
    (fun t => subscript "id" (rt_id t) ;;; subscript "var" (rt_var t) ;;; ret tt) w
  = (Return tt, w).
Proof.
  induction 1 as [|t xs [Hi Hv] _ IH]; simpl; trivial.
  unmonad; destruct (rt_id t), (rt_var t); try congruence.
  exact IH.
Qed.

Lemma print_loop_key_error (xs : list RemoteTunable) w :
  Exists (fun t => ~ has_keys t) xs ->
  exists key,
    for_each xs
      (fun t => subscript "id" (rt_id t) ;;; subscript "var" (rt_var t) ;;; ret tt) w
    = (Raise (OtherException ("'" ++ key ++ "'")), w) /\
    (key = "id" \/ key = "var").
Proof.
  induction 1 as [t xs Hno | t xs _ IH]; simpl; unmonad.
  - destruct (rt_id t) eqn:Hi; [|exists "id"; split; [reflexivity | now left]].
    destruct (rt_var t) eqn:Hv; [|exists "var"; split; [reflexivity | now right]].
    exfalso; apply Hno; split; congruence.
  - destruct (rt_id t); [|exists "id"; split; [reflexivity | now left]].
    destruct (rt_var t); [|exists "var"; split; [reflexivity | now right]].
    exact IH.
Qed.

(** One turn of the delete loop: one more deleted, or one more failed. *)
Lemma delete_turn_counts (t : RemoteTunable) :
  has_keys t ->
  forall (counts : Z * Z) w,
  exists counts' w',
    (tunable_id <- subscript "id" (rt_id t) ;;
     var_name <- subscript "var" (rt_var t) ;;
     try (Cleanup.delete_tunable_rest srv (Some tunable_id) ;;;
          ret (fst counts + 1, snd counts))
         (fun _ => ret (fst counts, snd counts + 1))) w
    = (Return counts', w') /\
    (counts' = (fst counts + 1, snd counts) \/ counts' = (fst counts, snd counts + 1)).
Proof.
  intros [Hi Hv] counts w.
  destruct (rt_id t) as [i|]; [|congruence].
  destruct (rt_var t) as [v|]; [|congruence].
  unfold subscript; unmonad.
  destruct (Cleanup.delete_tunable_rest srv (Some i) w) as [[b|e] w1];
    do 2 eexists; (split; [reflexivity|]); auto.
Qed.

(** The delete loop counts every candidate once. *)
Lemma delete_loop_counts (xs : list RemoteTunable) :
  Forall has_keys xs ->
  forall (counts : Z * Z) w,
  exists counts' w',
    for_fold xs
      (fun t counts =>
         tunable_id <- subscript "id" (rt_id t) ;;
         var_name <- subscript "var" (rt_var t) ;;
         try (Cleanup.delete_tunable_rest srv (Some tunable_id) ;;;
              ret (fst counts + 1, snd counts))
             (fun _ => ret (fst counts, snd counts + 1)))
      counts w
    = (Return counts', w') /\
    fst counts <= fst counts' /\ snd counts <= snd counts' /\
    fst counts' + snd counts' = fst counts + snd counts + Z.of_nat (List.length xs).
Proof.
  induction 1 as [|t xs Hk _ IH]; intros counts w.
  - exists counts, w; simpl; unfold ret; repeat split; lia.
  - cbn [for_fold]; unfold bind at 1; cbv beta.
    destruct (delete_turn_counts t Hk counts w) as (c1 & w1 & H1 & Hc).
    rewrite H1.
    destruct (IH c1 w1) as (c' & w' & H' & Hd & Hf & Hsum).
    exists c', w'; split; [exact H'|].
    cbn [List.length]; destruct Hc as [-> | ->]; cbn [fst snd] in *; repeat split; lia.
Qed.

End CleanupRun.

Lemma truthy_some (api_key : option string) :
  truthy api_key <> None -> exists k, truthy api_key = Some k.
Proof. destruct (truthy api_key) as [k|]; [eauto | congruence]. Qed.

(** X17.  Without its go-ahead the selective cleanup changes nothing: when
    [--force] is not the first argument and the line read is not [y] (in
    either case), or cannot be read, a run sends nothing but the list request
    and never reaches the delete loop.  No exception escapes [main]. *)
Theorem cleanup_needs_confirmation
        (srv : Server) (api_key : option string) (argv : list string)
        (stdin : Exn + string) (w : World) :
  Cleanup.forced argv = false ->
  (forall line, stdin = inr line -> lower line <> "y") ->
  exists ending w',
    Cleanup.main srv api_key argv stdin w = (Return ending, w') /\
    (forall deleted failed, ending <> Cleanup.Tally deleted failed) /\
    (w' = w \/ w' = listed_at srv w).
Proof.
  intros Hforce Hline.
  unfold Cleanup.main.
  destruct (truthy api_key) as [k|].
  2:{ exists Cleanup.NoApiKey, w; unfold ret; repeat split; [discriminate | now left]. }
  unfold try at 1, bind at 1.
  pose proof (get_tunables_rest_world srv w) as Hw.
  destruct (Cleanup.get_tunables_rest srv w) as [[ts|e] w1]; cbn [snd] in Hw; subst w1.
  2:{ do 2 eexists; unfold ret; repeat split; [discriminate | now right]. }
  cbv zeta.
  destruct (is_empty (Cleanup.select_test_tunables ts)).
  { do 2 eexists; unfold ret; repeat split; [discriminate | now right]. }
  unfold bind at 1.
  pose proof (print_loop_world (Cleanup.select_test_tunables ts) (listed_at srv w)) as Hp.
  destruct (for_each (Cleanup.select_test_tunables ts)
              (fun t => subscript "id" (rt_id t) ;;; subscript "var" (rt_var t) ;;; ret tt)
              (listed_at srv w)) as [[[]|e] w1]; cbn [snd] in Hp; subst w1.
  2:{ do 2 eexists; unfold ret; repeat split; [discriminate | now right]. }
  rewrite Hforce; unfold bind at 1.
  destruct stdin as [e|line].
  { do 2 eexists; unfold raise, ret; repeat split; [discriminate | now right]. }
  unfold ret at 1.
  destruct (String.eqb_spec (lower line) "y") as [E|E].
  { exfalso; exact (Hline line eq_refl E). }
  do 2 eexists; unfold ret; repeat split; [discriminate | now right].
Qed.

Lemma cleanup_needs_confirmation_witness :
  exists ending w',
    Cleanup.main picky_server (Some "secret") ["cleanup"; "-f"] (inr "N") world0
    = (Return ending, w') /\
    (forall deleted failed, ending <> Cleanup.Tally deleted failed) /\
    (w' = world0 \/ w' = listed_at picky_server world0).
Proof.
  apply (cleanup_needs_confirmation picky_server (Some "secret")
           ["cleanup"; "-f"] (inr "N") world0).
  - reflexivity.
  - intros line H; inv H; discriminate.
Defined.

(** X18.  With its go-ahead, a list that is answered and candidates that all
    have an id and a name, the selective cleanup ends with a tally in which
    every candidate counts once, as deleted or as failed. *)
Theorem cleanup_tally
        (srv : Server) (api_key : option string) (argv : list string)
        (stdin : Exn + string) (w : World) (tunables : list RemoteTunable) :
  truthy api_key <> None ->
  lists srv w tunables ->
  Cleanup.select_test_tunables tunables <> [] ->
  Forall has_keys (Cleanup.select_test_tunables tunables) ->
  confirmed argv stdin ->
  exists deleted failed w',
    Cleanup.main srv api_key argv stdin w = (Return (Cleanup.Tally deleted failed), w') /\
    0 <= deleted /\ 0 <= failed /\
    deleted + failed = Z.of_nat (List.length (Cleanup.select_test_tunables tunables)).
Proof.
  intros Hkey Hl Hne Hkeys Hconf.
  destruct (truthy_some _ Hkey) as [k Hk].
  unfold Cleanup.main; rewrite Hk.
  unfold try at 1, bind at 1.
  rewrite (get_tunables_rest_listed srv w tunables Hl); cbv zeta.
  destruct (is_empty (Cleanup.select_test_tunables tunables)) eqn:E;
    [apply is_empty_true in E; contradiction|].
  unfold bind at 1.
  rewrite (print_loop_keys _ _ Hkeys).
  unfold bind at 1.
  assert (Hc : (if Cleanup.forced argv then ret "y"
                else match stdin with
                     | inl e => raise e
                     | inr line => ret (lower line)
                     end) (listed_at srv w) = (Return "y", listed_at srv w)).
  { destruct Hconf as [-> | (line & -> & Hy)]; [reflexivity|].
    destruct (Cleanup.forced argv); unfold ret; congruence. }
  rewrite Hc; cbn [negb String.eqb Ascii.eqb Bool.eqb].
  unfold bind at 1.
  destruct (delete_loop_counts srv _ Hkeys (0, 0) (listed_at srv w))
    as ([deleted failed] & w' & H' & Hd & Hf & Hsum).
  rewrite H'; cbn [fst snd] in *.
  exists deleted, failed, w'; unfold ret; repeat split; lia.
Qed.

Lemma cleanup_tally_witness :
  exists deleted failed w',
    Cleanup.main picky_server (Some "secret") ["cleanup"; "--force"] (inr "") world0
    = (Return (Cleanup.Tally deleted failed), w') /\
    0 <= deleted /\ 0 <= failed /\
    deleted + failed
    = Z.of_nat (List.length
                  (Cleanup.select_test_tunables
                     [remote 1 "vm.swappiness" "Validation Test"; remote 2 "custom" ""])).
Proof.
  apply (cleanup_tally picky_server (Some "secret") ["cleanup"; "--force"] (inr "") world0).
  - discriminate.
  - eexists; repeat split; reflexivity.
  - discriminate.
  - repeat constructor; discriminate.
  - left; reflexivity.
Defined.

(** X19.  When the list request is answered with a status other than 200, or
    raises, the selective cleanup stops with that error after this one
    request, whatever the arguments and the input, and exits with code 1. *)
Theorem cleanup_listing_fails
        (srv : Server) (api_key : option string) (argv : list string)
        (stdin : Exn + string) (w : World) :
  truthy api_key <> None ->
  (forall r,
      snd (get_tunables srv w) = Answered r -> status_code r <> 200 ->
      exists ending,
        Cleanup.main srv api_key argv stdin w = (Return ending, listed_at srv w) /\
        ending = Cleanup.CleanupError
                   (OtherException ("HTTP " ++ str_int (status_code r) ++ ": " ++ text r)) /\
        Cleanup.exit_code ending = 1)
  /\
  (forall e,
      snd (get_tunables srv w) = Failed e ->
      exists ending,
        Cleanup.main srv api_key argv stdin w = (Return ending, listed_at srv w) /\
        ending = Cleanup.CleanupError e /\
        Cleanup.exit_code ending = 1).
Proof.
  intros Hkey.
  destruct (truthy_some _ Hkey) as [k Hk].
  unfold Cleanup.main, Cleanup.get_tunables_rest, listed_at; rewrite Hk.
  split.
  - intros r Hr Hs; unmonad.
    destruct (get_tunables srv w) as [lat rp]; simpl in *; subst rp.
    apply Z.eqb_neq in Hs; rewrite Hs.
    eexists; split; [reflexivity|]; split; reflexivity.
  - intros e He; unmonad.
    destruct (get_tunables srv w) as [lat rp]; simpl in *; subst rp.
    eexists; split; [reflexivity|]; split; reflexivity.
Qed.

Lemma cleanup_listing_fails_witness :
  (exists ending,
      Cleanup.main broken_server (Some "secret") ["cleanup"; "--force"] (inr "y") world0
      = (Return ending, listed_at broken_server world0) /\
      ending = Cleanup.CleanupError (OtherException "HTTP 500: Internal Server Error") /\
      Cleanup.exit_code ending = 1)
  /\
  (exists ending,
      Cleanup.main unreachable_server (Some "secret") ["cleanup"] (inr "y") world0
      = (Return ending, listed_at unreachable_server world0) /\
      ending = Cleanup.CleanupError (RequestException "connection refused") /\
      Cleanup.exit_code ending = 1).
Proof.
  split.
  - refine (proj1 (cleanup_listing_fails broken_server (Some "secret")
                     ["cleanup"; "--force"] (inr "y") world0 _)
                  {| status_code := 500; text := "Internal Server Error";
                     json := inl (RequestException "Expecting value") |} _ _).
    + discriminate.
    + reflexivity.
    + discriminate.
  - refine (proj2 (cleanup_listing_fails unreachable_server (Some "secret")
                     ["cleanup"] (inr "y") world0 _)
                  (RequestException "connection refused") _).
    + discriminate.
    + reflexivity.
Defined.

(** X20.  A candidate without an id or without a name stops the selective
    cleanup before anything is deleted, even with [--force]: the [KeyError]
    for that key, raised by the loop that prints the candidates, ends the run
    right after the list request, with exit code 1. *)
Theorem cleanup_key_error
        (srv : Server) (api_key : option string) (argv : list string)
        (stdin : Exn + string) (w : World) (tunables : list RemoteTunable) :
  truthy api_key <> None ->
  lists srv w tunables ->
  Exists (fun t => ~ has_keys t) (Cleanup.select_test_tunables tunables) ->
  exists key ending,
    Cleanup.main srv api_key argv stdin w = (Return ending, listed_at srv w) /\
    ending = Cleanup.CleanupError (OtherException ("'" ++ key ++ "'")) /\
    (key = "id" \/ key = "var") /\
    Cleanup.exit_code ending = 1.
Proof.
  intros Hkey Hl Hex.
  destruct (truthy_some _ Hkey) as [k Hk].
  unfold Cleanup.main; rewrite Hk.
  unfold try at 1, bind at 1.
  rewrite (get_tunables_rest_listed srv w tunables Hl); cbv zeta.
  destruct (is_empty (Cleanup.select_test_tunables tunables)) eqn:E.
  { apply is_empty_true in E; rewrite E in Hex; inversion Hex. }
  unfold bind at 1.
  destruct (print_loop_key_error _ (listed_at srv w) Hex) as (key & He & Hkey').
  rewrite He; exists key; eexists.
  split; [reflexivity|]; repeat split; trivial.
Qed.

Lemma cleanup_key_error_witness :
  exists key ending,
    Cleanup.main keyless_server (Some "secret") ["cleanup"; "--force"] (inr "") world0
    = (Return ending, listed_at keyless_server world0) /\
    ending = Cleanup.CleanupError (OtherException ("'" ++ key ++ "'")) /\
    (key = "id" \/ key = "var") /\
    Cleanup.exit_code ending = 1.
Proof.
  apply (cleanup_key_error keyless_server (Some "secret") ["cleanup"; "--force"] (inr "")
           world0
           [{| rt_id := None; rt_var := Some "custom";
               rt_comment := Some "test"; rt_enabled := Some true |}]).
  - discriminate.
  - eexists; repeat split; reflexivity.
  - apply Exists_cons_hd; intros [H _]; apply H; reflexivity.
Defined.

(** ** Full wipe *)

Section FullWipe.

Variable srv : Server.

Lemma error_status_spec status :
  (400 <=? status) && (status <? 500) || (500 <=? status) && (status <? 600) = true
  <-> error_status status.
Proof. unfold error_status; lia. Qed.

Lemma raise_for_status_ok {A} (r : Response A) w :
  ~ error_status (status_code r) ->
  DeleteAll.raise_for_status r w = (Return tt, w).
Proof.
  unfold error_status, DeleteAll.raise_for_status; intros H; cbv zeta.
  destruct ((400 <=? status_code r) && (status_code r <? 500)) eqn:E1; [lia|].
  destruct ((500 <=? status_code r) && (status_code r <? 600)) eqn:E2; [lia|].
  reflexivity.
Qed.

Lemma raise_for_status_error {A} (r : Response A) w :
  error_status (status_code r) ->
  exists msg, DeleteAll.raise_for_status r w = (Raise (RequestException msg), w).
Proof.
  unfold error_status, DeleteAll.raise_for_status; intros H; cbv zeta.
  destruct ((400 <=? status_code r) && (status_code r <? 500)) eqn:E1;
    [eexists; reflexivity|].
  destruct ((500 <=? status_code r) && (status_code r <? 600)) eqn:E2;
    [eexists; reflexivity | lia].
Qed.

(** One turn of the full wipe, by the answer to its DELETE. *)
Lemma delete_one_outcome
        (t : RemoteTunable) (counts : Z * Z) (w : World) (i : Z) :
  rt_id t = Some i ->
  rt_var t <> None ->
  exists o,
    DeleteAll.delete_one srv t counts w
    = (o, after (DELETE_tunable (Some i)) (fst (del_tunable srv w (Some i))) w) /\
    match snd (del_tunable srv w (Some i)) with
    | Answered r =>
        (error_status (status_code r) -> o = Return (fst counts, snd counts + 1)) /\
        (~ error_status (status_code r) -> o = Return (fst counts + 1, snd counts))
    | Failed (RequestException _) => o = Return (fst counts, snd counts + 1)
    | Failed (OtherException msg) => o = Raise (OtherException msg)
    end.
Proof.
  intros Hi Hv.
  unfold DeleteAll.delete_one; rewrite Hi.
  destruct (rt_var t) as [v|]; [|congruence].
  unfold subscript, DeleteAll.try_request; unmonad.
  destruct (del_tunable srv w (Some i)) as [lat [[m|m]|r]]; cbn [fst snd].
  - eexists; split; reflexivity.
  - eexists; split; reflexivity.
  - destruct (Z_le_dec 400 (status_code r)) as [Hlo|Hlo];
      [destruct (Z_lt_dec (status_code r) 600) as [Hhi|Hhi]|].
    + destruct (raise_for_status_error r
                  (after (DELETE_tunable (Some i)) lat w)) as [msg Hm];
        [unfold error_status; lia|].
      rewrite Hm; eexists; split; [reflexivity|].
      split; [trivial | unfold error_status; lia].
    + rewrite raise_for_status_ok by (unfold error_status; lia).
      eexists; split; [reflexivity|].
      split; [unfold error_status; lia | trivial].
    + rewrite raise_for_status_ok by (unfold error_status; lia).
      eexists; split; [reflexivity|].
      split; [unfold error_status; lia | trivial].
Qed.

(** The loop of the full wipe. *)
Lemma delete_all_loop (xs : list RemoteTunable) :
  delete_raises_requests_only srv ->
  Forall has_keys xs ->
  forall (counts : Z * Z) w,
  exists counts' w',
    for_fold xs (DeleteAll.delete_one srv) counts w = (Return counts', w') /\
    fst counts <= fst counts' /\ snd counts <= snd counts' /\
    fst counts' + snd counts' = fst counts + snd counts + Z.of_nat (List.length xs) /\
    trace w' = (trace w ++ map (fun t => Sent (DELETE_tunable (rt_id t))) xs)%list.
Proof.
  intros Hsrv.
  induction 1 as [|t xs [Hi Hv] _ IH]; intros counts w.
  - exists counts, w; simpl; unfold ret; rewrite app_nil_r; repeat split; lia.
  - cbn [for_fold]; unfold bind at 1.
    destruct (rt_id t) as [i|] eqn:Ei; [|congruence].
    destruct (delete_one_outcome t counts w i Ei Hv) as (o & Ho & Hcase).
    rewrite Ho.
    assert (Hret : o = Return (fst counts, snd counts + 1) \/
                   o = Return (fst counts + 1, snd counts)).
    { pose proof (Hsrv w (Some i)) as Hno.
      destruct (snd (del_tunable srv w (Some i))) as [[m|m]|r].
      - now left.
      - exfalso; exact (Hno m eq_refl).
      - destruct Hcase as [He Hok].
        destruct (Z_le_dec 400 (status_code r)) as [Hlo|Hlo];
          [destruct (Z_lt_dec (status_code r) 600) as [Hhi|Hhi]|].
        + left; apply He; unfold error_status; lia.
        + right; apply Hok; unfold error_status; lia.
        + right; apply Hok; unfold error_status; lia. }
    destruct Hret as [-> | ->];
      match goal with
      | |- context [for_fold xs _ ?c ?w1] =>
          destruct (IH c w1) as (c' & w' & H' & Hd & Hf & Hsum & Htr)
      end;
      exists c', w'; rewrite H'; cbn [fst snd List.length map] in *;
      (split; [reflexivity|]); rewrite Htr; unfold after; cbn [trace];
      rewrite <- app_assoc, ?Ei; cbn [app]; repeat split; try lia; reflexivity.
Qed.

End FullWipe.

(** X21.  One turn of the full wipe sends the DELETE of the entry's id and
    never reads the answer's body: any status outside 400..599 counts the
    entry as deleted, a status from 400 to 599 or a request exception counts
    it as failed, and any other exception escapes. *)
Theorem delete_one_counts
        (srv : Server) (t : RemoteTunable) (counts : Z * Z) (w : World) (i : Z) :
  rt_id t = Some i ->
  rt_var t <> None ->
  exists o,
    DeleteAll.delete_one srv t counts w
    = (o, after (DELETE_tunable (Some i)) (fst (del_tunable srv w (Some i))) w) /\
    match snd (del_tunable srv w (Some i)) with
    | Answered r =>
        (error_status (status_code r) -> o = Return (fst counts, snd counts + 1)) /\
        (~ error_status (status_code r) -> o = Return (fst counts + 1, snd counts))
    | Failed (RequestException _) => o = Return (fst counts, snd counts + 1)
    | Failed (OtherException msg) => o = Raise (OtherException msg)
    end.
Proof. exact (delete_one_outcome srv t counts w i). Qed.

Lemma delete_one_counts_witness :
  DeleteAll.delete_one picky_server (remote 2 "custom" "") (0, 0) world0
  = (Return (0, 1), {| now := 20; trace := [Sent (DELETE_tunable (Some 2))] |}).
Proof.
  destruct (delete_one_counts picky_server (remote 2 "custom" "") (0, 0) world0 2)
    as (o & Ho & He & _).
  - reflexivity.
  - discriminate.
  - rewrite Ho, He; [reflexivity|].
    unfold error_status; simpl; lia.
Defined.

Lemma for_fold_app {A S} (xs ys : list A) (body : A -> S -> M S) :
  forall s w,
    for_fold (xs ++ ys) body s w =
    match for_fold xs body s w with
    | (Return s', w') => for_fold ys body s' w'
    | (Raise e, w') => (Raise e, w')
    end.
Proof.
  induction xs as [|x xs IH]; intros s w; simpl; trivial.
  unfold bind; destruct (body x s w) as [[s1|e] w1]; trivial.
Qed.

Section FullWipeRun.

Variable srv : Server.

Lemma delete_all_listed api_key w tunables :
  truthy api_key <> None ->
  wipe_lists srv w tunables ->
  DeleteAll.delete_all_tunables srv api_key w =
  DeleteAll.try_request
    (if Z.of_nat (List.length tunables) =? 0 then ret DeleteAll.NothingToDelete
     else
       ' (deleted_count, failed_count) <-
         for_fold tunables (DeleteAll.delete_one srv) (0, 0) ;;
       ret (DeleteAll.Tally deleted_count failed_count))
    (fun msg => ret (DeleteAll.ApiError msg))
    (listed_at srv w).
Proof.
  intros Hkey (r & Hr & Hs & Hj).
  destruct (truthy_some _ Hkey) as [k Hk].
  unfold DeleteAll.delete_all_tunables; rewrite Hk.
  unfold DeleteAll.try_request, listed_at, bind at 1, send.
  destruct (get_tunables srv w) as [lat rp]; cbn [fst snd] in *; subst rp.
  unfold bind at 1; rewrite (raise_for_status_ok r _ Hs).
  unfold bind at 1, decode; rewrite Hj; cbv zeta.
  reflexivity.
Qed.

(** X22.  When the list is let through, every entry has an id and a name and
    the DELETE endpoint raises nothing but request exceptions, the full wipe
    sends exactly one DELETE per listed tunable, in the order of the list,
    and ends with a tally in which deleted plus failed is the number
    listed. *)
Theorem delete_all_tally
        (api_key : option string) (w : World) (tunables : list RemoteTunable) :
  truthy api_key <> None ->
  wipe_lists srv w tunables ->
  tunables <> [] ->
  Forall has_keys tunables ->
  delete_raises_requests_only srv ->
  exists deleted failed w',
    DeleteAll.delete_all_tunables srv api_key w
    = (Return (DeleteAll.Tally deleted failed), w') /\
    0 <= deleted /\ 0 <= failed /\
    deleted + failed = Z.of_nat (List.length tunables) /\
    trace w'
    = (trace w ++ Sent GET_tunable
         :: map (fun t => Sent (DELETE_tunable (rt_id t))) tunables)%list.
Proof.
  intros Hkey Hl Hne Hkeys Hsrv.
  rewrite (delete_all_listed api_key w tunables Hkey Hl).
  destruct (Z.eqb_spec (Z.of_nat (List.length tunables)) 0) as [E|E].
  { destruct tunables; [congruence | simpl in E; lia]. }
  destruct (delete_all_loop srv tunables Hsrv Hkeys (0, 0) (listed_at srv w))
    as ([deleted failed] & w' & H' & Hd & Hf & Hsum & Htr).
  unfold DeleteAll.try_request, bind; rewrite H'; unfold ret.
  cbn [fst snd] in *.
  exists deleted, failed, w'; repeat split; try lia.
  rewrite Htr; unfold listed_at, after; cbn [trace].
  now rewrite <- app_assoc.
Qed.

(** X23.  When the list request of the full wipe is answered with a status
    from 400 to 599 or raises a request exception, the script stops after
    that one request and exits with code 1; any other exception escapes
    it. *)
Theorem delete_all_listing_fails (api_key : option string) (w : World) :
  truthy api_key <> None ->
  (forall r,
      snd (get_tunables srv w) = Answered r -> error_status (status_code r) ->
      exists msg ending,
        DeleteAll.delete_all_tunables srv api_key w = (Return ending, listed_at srv w) /\
        ending = DeleteAll.ApiError msg /\
        DeleteAll.exit_code ending = 1)
  /\
  (forall msg,
      snd (get_tunables srv w) = Failed (RequestException msg) ->
      exists ending,
        DeleteAll.delete_all_tunables srv api_key w = (Return ending, listed_at srv w) /\
        ending = DeleteAll.ApiError msg /\
        DeleteAll.exit_code ending = 1)
  /\
  (forall msg,
      snd (get_tunables srv w) = Failed (OtherException msg) ->
      DeleteAll.delete_all_tunables srv api_key w
      = (Raise (OtherException msg), listed_at srv w)).
Proof.
  intros Hkey.
  destruct (truthy_some _ Hkey) as [k Hk].
  unfold DeleteAll.delete_all_tunables; rewrite Hk.
  cbv beta delta [bind send DeleteAll.try_request listed_at].
  split; [|split].
  - intros r Hr Hs.
    destruct (get_tunables srv w) as [lat rp]; cbn [fst snd] in *; subst rp.
    destruct (raise_for_status_error r (after GET_tunable lat w) Hs) as [msg Hm].
    rewrite Hm; exists msg; eexists; split; [reflexivity|]; split; reflexivity.
  - intros msg Hr.
    destruct (get_tunables srv w) as [lat rp]; cbn [fst snd] in *; subst rp.
    eexists; split; [reflexivity|]; split; reflexivity.
  - intros msg Hr.
    destruct (get_tunables srv w) as [lat rp]; cbn [fst snd] in *; subst rp.
    reflexivity.
Qed.

(** X24.  An empty list ends the full wipe after the list request, with
    nothing deleted and exit code 0. *)
Theorem delete_all_nothing_listed (api_key : option string) (w : World) :
  truthy api_key <> None ->
  wipe_lists srv w [] ->
  DeleteAll.delete_all_tunables srv api_key w
  = (Return DeleteAll.NothingToDelete, listed_at srv w).
Proof.
  intros Hkey Hl.
  rewrite (delete_all_listed api_key w [] Hkey Hl); reflexivity.
Qed.

(** X25.  An entry without an id or without a name makes a [KeyError] escape
    the full wipe (its [except] clauses catch request exceptions only): the
    entries before it have had their DELETE, the entry itself and those
    after it have not. *)
Theorem delete_all_key_error
        (api_key : option string) (w : World)
        (before : list RemoteTunable) (t : RemoteTunable) (rest : list RemoteTunable) :
  truthy api_key <> None ->
  wipe_lists srv w (before ++ t :: rest) ->
  Forall has_keys before ->
  ~ has_keys t ->
  delete_raises_requests_only srv ->
  exists key w',
    DeleteAll.delete_all_tunables srv api_key w
    = (Raise (OtherException ("'" ++ key ++ "'")), w') /\
    (key = "id" \/ key = "var") /\
    trace w'
    = (trace w ++ Sent GET_tunable
         :: map (fun t => Sent (DELETE_tunable (rt_id t))) before)%list.
Proof.
  intros Hkey Hl Hkeys Hno Hsrv.
  rewrite (delete_all_listed api_key w _ Hkey Hl).
  destruct (Z.eqb_spec (Z.of_nat (List.length (before ++ t :: rest))) 0) as [E|E].
  { rewrite length_app in E; simpl in E; lia. }
  destruct (delete_all_loop srv before Hsrv Hkeys (0, 0) (listed_at srv w))
    as (c & w' & H' & _ & _ & _ & Htr).
  unfold DeleteAll.try_request, bind.
  rewrite for_fold_app, H'; cbn [for_fold]; unfold bind.
  assert (Hraise : exists key,
             DeleteAll.delete_one srv t c w' = (Raise (OtherException ("'" ++ key ++ "'")), w')
             /\ (key = "id" \/ key = "var")).
  { unfold DeleteAll.delete_one, subscript; unmonad.
    destruct (rt_id t) as [i|] eqn:Ei; [|exists "id"; auto].
    destruct (rt_var t) as [v|] eqn:Ev; [|exists "var"; auto].
    exfalso; apply Hno; split; congruence. }
  destruct Hraise as (key & Hr & Hk).
  rewrite Hr; exists key, w'; repeat split; trivial.
  rewrite Htr; unfold listed_at, after; cbn [trace].
  now rewrite <- app_assoc.
Qed.

End FullWipeRun.

Lemma picky_server_raises_nothing : delete_raises_requests_only picky_server.
Proof.
  intros w id msg; simpl.
  destruct (id_eqb id (Some 1)); discriminate.
Qed.

Lemma delete_all_tally_witness :
  exists deleted failed w',
    DeleteAll.delete_all_tunables picky_server (Some "secret") world0
    = (Return (DeleteAll.Tally deleted failed), w') /\
    0 <= deleted /\ 0 <= failed /\
    deleted + failed
    = Z.of_nat (List.length
                  [remote 1 "vm.swappiness" "Validation Test"; remote 2 "custom" ""]) /\
    trace w'
    = (trace world0 ++ Sent GET_tunable
         :: map (fun t => Sent (DELETE_tunable (rt_id t)))
                [remote 1 "vm.swappiness" "Validation Test"; remote 2 "custom" ""])%list.
Proof.
  apply (delete_all_tally picky_server (Some "secret") world0).
  - discriminate.
  - eexists; repeat split; try reflexivity.
    unfold error_status; simpl; lia.
  - discriminate.
  - repeat constructor; discriminate.
  - exact picky_server_raises_nothing.
Defined.

Lemma delete_all_listing_fails_witness :
  (exists msg ending,
      DeleteAll.delete_all_tunables broken_server (Some "secret") world0
      = (Return ending, listed_at broken_server world0) /\
      ending = DeleteAll.ApiError msg /\
      DeleteAll.exit_code ending = 1)
  /\
  (exists ending,
      DeleteAll.delete_all_tunables unreachable_server (Some "secret") world0
      = (Return ending, listed_at unreachable_server world0) /\
      ending = DeleteAll.ApiError "connection refused" /\
      DeleteAll.exit_code ending = 1).
Proof.
  split.
  - refine (proj1 (delete_all_listing_fails broken_server (Some "secret") world0 _)
                  {| status_code := 500; text := "Internal Server Error";
                     json := inl (RequestException "Expecting value") |} _ _).
    + discriminate.
    + reflexivity.
    + unfold error_status; simpl; lia.
  - refine (proj1 (proj2 (delete_all_listing_fails unreachable_server (Some "secret")
                            world0 _))
                  "connection refused" _).
    + discriminate.
    + reflexivity.
Defined.

Lemma delete_all_nothing_listed_witness :
  DeleteAll.delete_all_tunables quiet_server (Some "secret") world0
  = (Return DeleteAll.NothingToDelete, listed_at quiet_server world0).
Proof.
  apply (delete_all_nothing_listed quiet_server (Some "secret") world0).
  - discriminate.
  - eexists; repeat split; try reflexivity.
    unfold error_status; simpl; lia.
Defined.

Lemma delete_all_key_error_witness :
  exists key w',
    DeleteAll.delete_all_tunables keyless_server (Some "secret") world0
    = (Raise (OtherException ("'" ++ key ++ "'")), w') /\
    (key = "id" \/ key = "var") /\
    trace w'
    = (trace world0 ++ Sent GET_tunable
         :: map (fun t => Sent (DELETE_tunable (rt_id t))) [])%list.
Proof.
  apply (delete_all_key_error keyless_server (Some "secret") world0 []
           {| rt_id := None; rt_var := Some "custom";
              rt_comment := Some "test"; rt_enabled := Some true |} []).
  - discriminate.
  - eexists; repeat split; try reflexivity.
    unfold error_status; simpl; lia.
  - constructor.
  - intros [H _]; apply H; reflexivity.
  - intros w id msg; discriminate.
Defined.

(** ** The comment sent *)

Lemma slice_to_prefix n : forall s, exists rest, s = slice_to n s ++ rest.
Proof.
  induction n as [|n IH]; intros [|c s]; simpl; try (eexists; reflexivity).
  destruct (IH s) as [rest E]; exists rest; congruence.
Qed.

Lemma slice_to_short n : forall s, (String.length s <= n)%nat -> slice_to n s = s.
Proof.
  induction n as [|n IH]; intros [|c s] H; simpl in *; trivial; try lia.
  rewrite IH; [trivial | lia].
Qed.

Lemma slice_to_long n : forall s, (n <= String.length s)%nat -> String.length (slice_to n s) = n.
Proof.
  induction n as [|n IH]; intros [|c s] H; simpl in *; trivial; try lia.
  rewrite IH; [trivial | lia].
Qed.

(** X26.  The comment sent with a creation is the beginning of the
    description: the whole description when it has at most 255 characters,
    its first 255 characters otherwise.  Name, value and type are sent as
    they are, and the tunable is created enabled. *)
Theorem create_data_fields (tunable : Tunable) :
  (exists rest, description tunable = cd_comment (create_data tunable) ++ rest) /\
  ((String.length (description tunable) <= 255)%nat ->
   cd_comment (create_data tunable) = description tunable) /\
  ((255 <= String.length (description tunable))%nat ->
   String.length (cd_comment (create_data tunable)) = 255%nat) /\
  cd_var (create_data tunable) = name tunable /\
  cd_value (create_data tunable) = value tunable /\
  cd_type (create_data tunable) = type tunable /\
  cd_enabled (create_data tunable) = true.
Proof.
  unfold create_data; cbn [cd_comment cd_var cd_value cd_type cd_enabled].
  split; [apply slice_to_prefix|].
  split; [apply slice_to_short|].
  split; [apply slice_to_long|].
  repeat split.
Qed.

Lemma create_data_fields_witness :
  cd_comment (create_data (Validate.tunable "vm.swappiness" "SYSCTL" "1"
                             "Minimizes swap usage with 192GB RAM available"))
  = "Minimizes swap usage with 192GB RAM available".
Proof.
  apply (proj1 (proj2 (create_data_fields
                         (Validate.tunable "vm.swappiness" "SYSCTL" "1"
                            "Minimizes swap usage with 192GB RAM available")))).
  simpl; lia.
Defined.
